(** * Song catalogue HTTP API: request handlers over a document store

    A shallow embedding of [server.py] and [errors.py].  Each Flask
    handler becomes a function from the request to a computation over the
    store; the Python builtins and the driver calls the handlers rely on
    ([int], [float], truthiness, [str.format], [ObjectId], [find],
    [aggregate], [update_one], [find_one]) are modelled next to them.
    Text is kept as its UTF-8 bytes. *)

From Stdlib Require Import QArith Qabs Qcanon Ascii String.
From stdpp Require Import gmap strings list fin_maps pretty.

Local Open Scope string_scope.
Local Open Scope list_scope.
Local Open Scope Z_scope.

(** ** Python values and builtins *)

(** [Py_ISSPACE]: the white space of ASCII, which [int] and
    [bytes.fromhex] skip. *)
Definition is_space (c : ascii) : bool :=
  let n := Z.of_N (N_of_ascii c) in
  ((9 <=? n) && (n <=? 13)) || (n =? 32).

Module objectid.

(** A BSON object identifier, kept as the text that [str(oid)] prints:
    the bytes of the identifier in lower-case hexadecimal digits. *)
Record t := mk { hex : string }.

#[global] Instance t_eq_dec : EqDecision t.
Proof. solve_decision. Defined.

Definition is_hex (c : ascii) : bool :=
  let n := Z.of_N (N_of_ascii c) in
  ((48 <=? n) && (n <=? 57)) || ((65 <=? n) && (n <=? 70))
  || ((97 <=? n) && (n <=? 102)).

Definition lower (c : ascii) : ascii :=
  let n := N_of_ascii c in
  if ((65 <=? n) && (n <=? 90))%N then ascii_of_N (n + 32) else c.

(** [bytes.fromhex(s)], the bytes read being kept as lower-case
    hexadecimal digits: white space is skipped before each byte, a byte is
    two hexadecimal digits next to each other.  [None] stands for
    [ValueError]. *)
Fixpoint fromhex (s : string) : option string :=
  match s with
  | EmptyString => Some EmptyString
  | String c r =>
      if is_space c then fromhex r
      else if is_hex c then
        match r with
        | String c' r' =>
            if is_hex c'
            then (λ bytes, String (lower c) (String (lower c') bytes))
                   <$> fromhex r'
            else None
        | EmptyString => None
        end
      else None
  end.

(** [objectid.ObjectId(s)] on text: a text of 24 characters that
    [bytes.fromhex] reads makes an identifier, anything else raises
    [InvalidId], here [None]. *)
Definition ObjectId (s : string) : option t :=
  if Z.of_nat (String.length s) =? 24 then mk <$> fromhex s else None.

End objectid.

(** Python's [float]: IEEE 754 binary64, a finite value being kept as its
    sign and its magnitude, an exact rational in lowest terms. *)
Module float.

Inductive t :=
| Finite (neg : bool) (mag : Q)
| Infinity (neg : bool)
| NaN.

(** The integer nearest to [num / den] for [den > 0], ties to even. *)
Definition rne (num den : Z) : Z :=
  let fl := num / den in
  match 2 * (num mod den) ?= den with
  | Lt => fl
  | Gt => fl + 1
  | Eq => if Z.even fl then fl else fl + 1
  end.

(** [floor (log2 (a / b))] for [a > 0]. *)
Definition ilog2 (a : Z) (b : positive) : Z :=
  let d := Z.log2 a - Z.log2 (Zpos b) in
  if 0 <=? d
  then (if Zpos b * 2 ^ d <=? a then d else d - 1)
  else (if Zpos b <=? a * 2 ^ (- d) then d else d - 1).

(** The magnitude of the binary64 number nearest to [a / b > 0]: 53
    significant bits, exponents down to -1074, ties to even.  It can be
    zero (underflow) or reach [2 ^ 1024] (overflow). *)
Definition round_mag (a : Z) (b : positive) : Q :=
  let e := Z.max (ilog2 a b - 52) (- 1074) in
  if 0 <=? e
  then inject_Z (rne a (Zpos b * 2 ^ e) * 2 ^ e)
  else Qred (rne (a * 2 ^ (- e)) (Zpos b) # Z.to_pos (2 ^ (- e))).

(** The float nearest to the number of sign [neg] and magnitude
    [q >= 0]. *)
Definition rounded (neg : bool) (q : Q) : t :=
  let q := Qred q in
  if Qnum q =? 0 then Finite neg 0
  else
    let r := round_mag (Qnum q) (Qden q) in
    if Qle_bool (inject_Z (2 ^ 1024)) r then Infinity neg else Finite neg r.

(** The float nearest to a rational. *)
Definition nearest (q : Q) : t := rounded (Qnum q <? 0) (Qabs q).

(** An integer as a float.  The integers that reach it here are counts
    read from the store, 64 bits wide, far from the range where the
    conversion raises. *)
Definition of_int (z : Z) : t := nearest (inject_Z z).

Definition signed (neg : bool) (mag : Q) : Q := if neg then (- mag)%Q else mag.

Definition mul (x y : t) : t :=
  match x, y with
  | NaN, _ | _, NaN => NaN
  | Infinity n, Infinity n' => Infinity (xorb n n')
  | Infinity n, Finite n' q | Finite n' q, Infinity n =>
      if Qnum q =? 0 then NaN else Infinity (xorb n n')
  | Finite n q, Finite n' q' => rounded (xorb n n') (q * q')
  end.

Definition add (x y : t) : t :=
  match x, y with
  | NaN, _ | _, NaN => NaN
  | Infinity n, Infinity n' => if eqb n n' then Infinity n else NaN
  | Infinity n, Finite _ _ | Finite _ _, Infinity n => Infinity n
  | Finite n q, Finite n' q' =>
      let s := (signed n q + signed n' q')%Q in
      if Qnum s =? 0 then Finite (n && n') 0 else nearest s
  end.

(** [x / y] for [y] other than zero; Python raises [ZeroDivisionError]
    on a zero divisor, which the caller tests for. *)
Definition div (x y : t) : t :=
  match x, y with
  | NaN, _ | _, NaN => NaN
  | Infinity _, Infinity _ => NaN
  | Infinity n, Finite n' _ => Infinity (xorb n n')
  | Finite n _, Infinity n' => Finite (xorb n n') 0
  | Finite n q, Finite n' q' =>
      if Qnum q' =? 0 then NaN else rounded (xorb n n') (q / q')
  end.

#[global] Arguments rounded : simpl never.
#[global] Arguments nearest : simpl never.
#[global] Arguments of_int : simpl never.
#[global] Arguments mul : simpl never.
#[global] Arguments add : simpl never.
#[global] Arguments div : simpl never.

End float.

(** The dynamically typed values the handlers pass around. *)
Inductive pyval :=
| PyNone
| PyStr (s : string)
| PyInt (z : Z)
| PyOid (o : objectid.t).

(** Truth value of a Python object, as tested by [if], [not] and [or]. *)
Definition truthy (v : pyval) : bool :=
  match v with
  | PyNone => false
  | PyStr s => negb (String.eqb s EmptyString)
  | PyInt z => negb (z =? 0)
  | PyOid _ => true
  end.

(** [a or b] *)
Definition py_or (a b : pyval) : pyval := if truthy a then a else b.

(** ['{}'.format(v)] *)
Definition py_format (v : pyval) : string :=
  match v with
  | PyNone => "None"
  | PyStr s => s
  | PyInt z => pretty z
  | PyOid o => objectid.hex o
  end.

(** The tables of the interpreter's Unicode database that [int] and
    [float] consult for the characters outside ASCII: which code points
    are white space ([Py_UNICODE_ISSPACE]) and which are decimal digits,
    with their value ([Py_UNICODE_TODECIMAL]).  They change with the
    version of the interpreter and are a parameter here. *)
Class UnicodeData := {
  unicode_space : N → bool;
  unicode_decimal : N → option N
}.

(** The code points of a text from its UTF-8 bytes; a byte that starts
    no character reads as U+FFFD. *)
Definition continuation (c : ascii) : N := (N_of_ascii c mod 64)%N.

Fixpoint utf8_decode (s : string) : list N :=
  match s with
  | EmptyString => []
  | String c r =>
      let b := N_of_ascii c in
      if (b <? 128)%N then b :: utf8_decode r
      else if ((192 <=? b) && (b <? 224))%N then
        match r with
        | String c1 r1 =>
            ((b - 192) * 64 + continuation c1)%N :: utf8_decode r1
        | _ => [65533%N]
        end
      else if ((224 <=? b) && (b <? 240))%N then
        match r with
        | String c1 (String c2 r2) =>
            ((b - 224) * 4096 + continuation c1 * 64 + continuation c2)%N
            :: utf8_decode r2
        | _ => [65533%N]
        end
      else if ((240 <=? b) && (b <? 248))%N then
        match r with
        | String c1 (String c2 (String c3 r3)) =>
            ((b - 240) * 262144 + continuation c1 * 4096
             + continuation c2 * 64 + continuation c3)%N
            :: utf8_decode r3
        | _ => [65533%N]
        end
      else 65533%N :: utf8_decode r
  end.

Definition digit_of (c : ascii) : option Z :=
  let n := Z.of_N (N_of_ascii c) in
  if (48 <=? n) && (n <=? 57) then Some (n - 48) else None.

Fixpoint lstrip (s : string) : string :=
  match s with
  | EmptyString => EmptyString
  | String c r => if is_space c then lstrip r else s
  end.

Fixpoint rstrip (s : string) : string :=
  match s with
  | EmptyString => EmptyString
  | String c r =>
      match rstrip r with
      | EmptyString => if is_space c then EmptyString else String c EmptyString
      | r' => String c r'
      end
  end.

(** Decimal digits with single underscores allowed between digits;
    [prev] tells whether the previous character was a digit. *)
Fixpoint int_digits (acc : Z) (prev : bool) (s : string) : option Z :=
  match s with
  | EmptyString => if prev then Some acc else None
  | String c r =>
      match digit_of c with
      | Some d => int_digits (10 * acc + d) true r
      | None =>
          if Ascii.eqb c "_" && prev then int_digits acc false r else None
      end
  end.

(** A signed decimal literal in ASCII: white space around, an optional
    sign, digits.  The value is the sign and the magnitude. *)
Definition int_literal (s : string) : option (bool * Z) :=
  match lstrip (rstrip s) with
  | String "+" r => pair false <$> int_digits 0 false r
  | String "-" r => pair true <$> int_digits 0 false r
  | t => pair false <$> int_digits 0 false t
  end.

(** [min(l)] and [max(l)]; [None] stands for the [ValueError] raised on
    an empty sequence. *)
Definition py_min (l : list Z) : option Z :=
  match l with
  | [] => None
  | x :: xs => Some (foldl Z.min x xs)
  end.

Definition py_max (l : list Z) : option Z :=
  match l with
  | [] => None
  | x :: xs => Some (foldl Z.max x xs)
  end.

(** The double-quote character that the error messages put around the
    formatted value. *)
Definition dquote : string := String (ascii_of_N 34) EmptyString.

(** ** errors.py *)

Module errors.

Record ApiError := mkApiError { message : string; status_code : Z }.

Definition to_dict (e : ApiError) : string := message e.

Definition InvalidArgumentError (value : pyval) (arg : string) : ApiError :=
  mkApiError
    (dquote +:+ py_format value +:+ dquote
       +:+ " is not a valid argument for parameter "
       +:+ dquote +:+ arg +:+ dquote)
    500.

Definition MissingRequireArgumentError (arg url : string) : ApiError :=
  mkApiError
    ("argument " +:+ dquote +:+ arg +:+ dquote
       +:+ " is required for endpoint " +:+ dquote +:+ url +:+ dquote)
    500.

Definition ObjectNotFoundError (oid : pyval) : ApiError :=
  mkApiError
    ("song_id " +:+ dquote +:+ py_format oid +:+ dquote +:+ " not found")
    404.

End errors.

(** ** The document store *)

(** A song document.  [rating] is absent until the first rating is
    recorded; when present it maps a rating value, as text, to the number
    of times it was given. *)
Record Song := mkSong {
  _id : objectid.t;
  artist : string;
  title : string;
  level : Z;
  difficulty : Q;
  rating : option (gmap string Z)
}.

(** A row of the average-difficulty aggregation:
    [{"_id": <level>, "averageDifficulty": <average>}]. *)
Record AvgRow := mkAvgRow { row_id : Z; averageDifficulty : Q }.

(** The two pipeline stages that [get_avg_difficulty] builds. *)
Inductive stage :=
| group_level_avg_difficulty
| match_id (l : Z).

(** The driver calls a handler issues, oldest first. *)
Inductive StoreCall :=
| call_find (skip limit : Z)
| call_find_text (search : string)
| call_aggregate (pipeline : list stage)
| call_update_one (oid : objectid.t) (key : string)
| call_find_one (oid : objectid.t).

(** What a handler runs against: the [songs] collection in insertion
    order; the text index of the collection, if one was created (the
    documents that it finds for a search string, in the order the store
    returns them); the arithmetic of the store's
    [$avg] accumulator on the values of a group; the order in which the
    store hands out the groups of a [$group] stage, which it leaves
    unspecified; and the calls issued so far. *)
Record World := mkWorld {
  collection : list Song;
  text_index : option (string → list Song → list Song);
  store_avg : list Q → Q;
  group_order : list AvgRow → list AvgRow;
  group_order_perm : ∀ rows, group_order rows ≡ₚ rows;
  calls : list StoreCall
}.

Definition log (c : StoreCall) (w : World) : World :=
  mkWorld (collection w) (text_index w) (store_avg w) (group_order w)
    (group_order_perm w) (calls w ++ [c]).

Definition set_collection (docs : list Song) (w : World) : World :=
  mkWorld docs (text_index w) (store_avg w) (group_order w)
    (group_order_perm w) (calls w).

(** Exceptions that leave a handler uncaught. *)
Inductive exn :=
| TypeError
| KeyError
| ValueError
| ZeroDivisionError
| OverflowError
| OperationFailure.

Inductive result (A : Type) :=
| Ok (a : A)
| Raise (e : exn).
Arguments Ok {A} a.
Arguments Raise {A} e.

(** Computations over the store that may raise. *)
Definition M (A : Type) : Type := World → result A * World.

#[global] Instance M_ret : MRet M := λ A a w, (Ok a, w).

#[global] Instance M_bind : MBind M := λ A B k m w,
  match m w with
  | (Ok a, w') => k a w'
  | (Raise e, w') => (Raise e, w')
  end.

Definition raise {A : Type} (e : exn) : M A := λ w, (Raise e, w).

(** Run a builtin that signals failure by [None], raising [e] then. *)
Definition lift {A : Type} (e : exn) (o : option A) : M A :=
  match o with
  | Some a => mret a
  | None => raise e
  end.

(** The integers that the wire format of the store carries: 8 bytes,
    signed.  The driver raises [OverflowError] on any other. *)
Definition int64 (z : Z) : bool := (- 2 ^ 63 <=? z) && (z <? 2 ^ 63).

(** [collection.find(skip=skip, limit=limit)]: documents in natural
    order; a limit of 0 means no limit, a negative limit counts by its
    absolute value, a negative skip is refused by the driver, and so is
    a skip or a limit that does not fit the wire format. *)
Definition find (skip limit : Z) : M (list Song) := λ w,
  let w' := log (call_find skip limit) w in
  if skip <? 0 then (Raise ValueError, w')
  else if negb (int64 skip && int64 limit) then (Raise OverflowError, w')
  else
    let rest := drop (Z.to_nat skip) (collection w) in
    (Ok (if limit =? 0 then rest else take (Z.abs_nat limit) rest), w').

(** [collection.find({"$text": {"$search": message}})]: the store refuses
    the query on a collection without a text index. *)
Definition find_text (message : string) : M (list Song) := λ w,
  let w' := log (call_find_text message) w in
  match text_index w with
  | Some index => (Ok (index message (collection w)), w')
  | None => (Raise OperationFailure, w')
  end.

(** [collection.find_one({"_id": oid})]: the first document with that
    identifier, or [None]. *)
Definition first_with_id (oid : objectid.t) (docs : list Song) : option Song :=
  List.find (λ d, bool_decide (_id d = oid)) docs.

Definition find_one (oid : objectid.t) : M (option Song) := λ w,
  (Ok (first_with_id oid (collection w)), log (call_find_one oid) w).

(** [$inc] of [rating.<key>] by one on a document: a missing sub-document
    or a missing counter is created. *)
Definition inc_rating (key : string) (d : Song) : Song :=
  let m := default ∅ (rating d) in
  mkSong (_id d) (artist d) (title d) (level d) (difficulty d)
    (Some (<[key := default 0 (m !! key) + 1]> m)).

Fixpoint update_first (oid : objectid.t) (f : Song → Song)
    (docs : list Song) : list Song * Z :=
  match docs with
  | [] => ([], 0)
  | d :: r =>
      if bool_decide (_id d = oid) then (f d :: r, 1)
      else let '(r', n) := update_first oid f r in (d :: r', n)
  end.

(** [collection.update_one({"_id": oid}, {"$inc": {"rating.<key>": 1}})];
    the value is [matched_count]. *)
Definition update_one (oid : objectid.t) (key : string) : M Z := λ w,
  let '(docs, n) := update_first oid (inc_rating key) (collection w) in
  (Ok n, set_collection docs (log (call_update_one oid key) w)).

(** [$group] by [level]: one group per level, holding the [difficulty]
    of its documents in the order of the collection. *)
Fixpoint group_add (l : Z) (d : Q) (acc : list (Z * list Q))
    : list (Z * list Q) :=
  match acc with
  | [] => [(l, [d])]
  | (l', ds) :: r =>
      if bool_decide (l' = l) then (l', ds ++ [d]) :: r
      else (l', ds) :: group_add l d r
  end.

Definition group_by_level (docs : list Song) : list (Z * list Q) :=
  foldl (λ acc d, group_add (level d) (difficulty d) acc) [] docs.

(** The row of a group: [$avg] of its values. *)
Definition avg_row (avg : list Q → Q) (g : Z * list Q) : AvgRow :=
  mkAvgRow g.1 (avg g.2).

Definition run_stage (rows : list AvgRow) (st : stage) : option (list AvgRow) :=
  match st with
  | match_id l => Some (filter (λ r, row_id r = l) rows)
  | group_level_avg_difficulty => None
  end.

Fixpoint run_stages (rows : list AvgRow) (sts : list stage)
    : option (list AvgRow) :=
  match sts with
  | [] => Some rows
  | st :: r =>
      match run_stage rows st with
      | Some rows' => run_stages rows' r
      | None => None
      end
  end.

(** Whether the driver can encode a stage: the integer of a [$match]
    has to fit the wire format. *)
Definition encodable (st : stage) : bool :=
  match st with
  | match_id l => int64 l
  | group_level_avg_difficulty => true
  end.

(** The rows that the store hands out for the grouping stage. *)
Definition group_rows (w : World) : list AvgRow :=
  group_order w (avg_row (store_avg w) <$> group_by_level (collection w)).

(** [collection.aggregate(pipeline)] for pipelines that start by the
    grouping stage; any other pipeline is outside this model and is
    reported as a failed operation. *)
Definition aggregate (pipeline : list stage) : M (list AvgRow) := λ w,
  let w' := log (call_aggregate pipeline) w in
  if negb (forallb encodable pipeline) then (Raise OverflowError, w')
  else
    match pipeline with
    | group_level_avg_difficulty :: sts =>
        match run_stages (group_rows w) sts with
        | Some rows => (Ok rows, w')
        | None => (Raise OperationFailure, w')
        end
    | _ => (Raise OperationFailure, w')
    end.

(** ** Requests and responses *)

Record Request := mkRequest {
  path : string;
  args : gmap string string;
  form : gmap string string
}.

(** [request.args.get(k)] and [request.form.get(k)]: the text sent for
    [k], or [None]. *)
Definition args_get (request : Request) (k : string) : pyval :=
  from_option PyStr PyNone (args request !! k).

Definition form_get (request : Request) (k : string) : pyval :=
  from_option PyStr PyNone (form request !! k).

(** The JSON documents the handlers serialise. *)
Inductive Body :=
| JsonError (message : string)
| JsonSongs (songs : list Song)
| JsonRows (rows : list AvgRow)
| JsonStatusOK
| JsonStats (id : objectid.t) (min_rating max_rating : Z)
    (avg_rating : float.t).

(** Every response is sent as [application/json]; the status is 200
    unless the handler sets it. *)
Record Response := mkResponse { status : Z; data : Body }.

Definition json_response (b : Body) : Response := mkResponse 200 b.

Definition error_response (e : errors.ApiError) : Response :=
  mkResponse (errors.status_code e) (JsonError (errors.to_dict e)).

(** ** Fixtures *)

Module fixture.

Definition oid1 : objectid.t := objectid.mk "5aa0f1a5e2c8b72d4c3e9a01".
Definition oid2 : objectid.t := objectid.mk "5aa0f1a5e2c8b72d4c3e9a02".
Definition oid3 : objectid.t := objectid.mk "5aa0f1a5e2c8b72d4c3e9a03".

(** A song that was never rated. *)
Definition unrated : Song :=
  mkSong oid1 "The Yousicians" "Lycanthropic Metamorphosis" 14 (736 # 50)
    None.

(** A song rated once at 4. *)
Definition rated_once : Song :=
  mkSong oid2 "Mr Fastfinger" "Awaki-Waki" 13 15 (Some {["4" := 1]}).

(** A seeded song whose mapping records a zero count for 1. *)
Definition zero_count : Song :=
  mkSong oid3 "The Yousicians" "Babysitting" 13 16
    (Some (<["1" := 0]> {["3" := 2]})).

(** A song whose rating mapping is present and empty. *)
Definition empty_rating : Song :=
  mkSong oid3 "The Yousicians" "Greasy Fingers - boss level" 3 2 (Some ∅).

(** A seeded song whose only recorded count is zero. *)
Definition zero_total : Song :=
  mkSong oid3 "The Yousicians" "You've Got The Power" 13 (13 # 1)
    (Some {["3" := 0]}).

(** A song rated once at 1 and twice at 2. *)
Definition rated_thrice : Song :=
  mkSong oid3 "The Yousicians" "Wishing In The Night" 10 (10 # 1)
    (Some (<["1" := 1]> {["2" := 2]})).

(** A song with more ratings at 5 than floats count exactly. *)
Definition large_count : Song :=
  mkSong oid3 "The Yousicians" "A New Kennel" 9 (204 # 100)
    (Some {["5" := 1960144884822115]}).

(** A text index that finds nothing. *)
Definition empty_index : string → list Song → list Song := λ _ _, [].

(** An averaging in exact arithmetic. *)
Definition exact_avg (values : list Q) : Q :=
  (foldr Qplus 0 values / inject_Z (Z.of_nat (length values)))%Q.

(** A store that has a text index, averages exactly and hands out the
    groups in the order of first appearance. *)
Definition world (docs : list Song) : World :=
  mkWorld docs (Some empty_index) exact_avg id
    (λ rows, Permutation_refl rows) [].

Definition request (path : string) (args form : list (string * string))
    : Request :=
  mkRequest path (list_to_map args) (list_to_map form).

(** A fragment of the Unicode tables: the white space outside ASCII and
    the Arabic-Indic and full-width digits. *)
Definition unicode : UnicodeData := {|
  unicode_space cp :=
    bool_decide (cp ∈ [133; 160; 5760; 8232; 8233; 8239; 8287; 12288]%N)
    || ((8192 <=? cp) && (cp <=? 8202))%N;
  unicode_decimal cp :=
    if ((1632 <=? cp) && (cp <=? 1641))%N then Some (cp - 1632)%N
    else if ((65296 <=? cp) && (cp <=? 65305))%N then Some (cp - 65296)%N
    else None
|}.

End fixture.

(** ** server.py *)

Section interpreter.

Context {unicode_data : UnicodeData}.

(** The ASCII text that [int] and [float] read for a text that has
    characters outside ASCII: a character below 127 stays, a white space
    becomes a space, a decimal digit its ASCII digit, and the text ends by
    a question mark at the first character that is none of these. *)
Fixpoint to_ascii (cps : list N) : string :=
  match cps with
  | [] => EmptyString
  | cp :: r =>
      if (cp <? 127)%N then String (ascii_of_N cp) (to_ascii r)
      else if unicode_space cp then String " " (to_ascii r)
      else
        match unicode_decimal cp with
        | Some d =>
            if (d <? 10)%N then String (ascii_of_N (48 + d)) (to_ascii r)
            else "?"
        | None => "?"
        end
  end.

(** A text in ASCII is read as it is. *)
Definition int_text (s : string) : string :=
  if forallb (λ c, N_of_ascii c <? 128)%N (list_ascii_of_string s) then s
  else to_ascii (utf8_decode s).

(** [int(s)] on text in base ten.  [None] stands for [ValueError].  The
    limit that recent interpreters put on the number of digits is left
    out. *)
Definition py_int (s : string) : option Z :=
  (λ sm : bool * Z, if sm.1 then - sm.2 else sm.2)
    <$> int_literal (int_text s).

(** [int(v)] on the values that reach it: text is parsed, an integer is
    returned as it is. *)
Definition py_int_of (v : pyval) : option Z :=
  match v with
  | PyStr s => py_int s
  | PyInt z => Some z
  | _ => None
  end.

(** [float(k)] on a key of the rating mapping.  It is only reached after
    [int(k)] succeeded on every key, where it is the float nearest to
    that integer, with the sign of the literal. *)
Definition py_float (k : string) : option float.t :=
  (λ sm : bool * Z, float.rounded sm.1 (inject_Z sm.2))
    <$> int_literal (int_text k).

(** The validation loop of [get_songs]: [items] is [args.items()] in
    insertion order as it is iterated, [args] the dictionary the loop
    updates. *)
Fixpoint validate_args (items : list (string * pyval))
    (args : gmap string pyval) : errors.ApiError + gmap string pyval :=
  match items with
  | [] => inr args
  | (arg, val) :: rest =>
      if truthy val then
        match py_int_of val with
        | Some z =>
            if z <? 0 then inl (errors.InvalidArgumentError val arg)
            else validate_args rest (<[arg := PyInt z]> args)
        | None => inl (errors.InvalidArgumentError val arg)
        end
      else validate_args rest args
  end.

Definition get_songs (request : Request) : M Response :=
  let items := [("p", py_or (args_get request "p") (PyInt 0));
                ("n", py_or (args_get request "n") (PyInt 10))] in
  match validate_args items (list_to_map items) with
  | inl e => mret (error_response e)
  | inr args =>
      match args !! "n", args !! "p" with
      | Some (PyInt limit), Some (PyInt p) =>
          let skip := p * limit in
          songs ← find skip limit;
          mret (json_response (JsonSongs songs))
      | _, _ => raise TypeError
      end
  end.

Definition get_avg_difficulty (request : Request) : M Response :=
  let pipeline := [group_level_avg_difficulty] in
  let level := args_get request "level" in
  if truthy level then
    match py_int_of level with
    | Some l =>
        rows ← aggregate (pipeline ++ [match_id l]);
        mret (json_response (JsonRows rows))
    | None => mret (error_response (errors.InvalidArgumentError level "level"))
    end
  else
    rows ← aggregate pipeline;
    mret (json_response (JsonRows rows)).

Definition songs_search (request : Request) : M Response :=
  let message := args_get request "message" in
  if negb (truthy message) then
    mret (error_response
            (errors.MissingRequireArgumentError "message" (path request)))
  else
    q ← find_text (py_format message);
    mret (json_response (JsonSongs q)).

(** [objectid.ObjectId(v)] on a request value. *)
Definition ObjectId_of (v : pyval) : option objectid.t :=
  match v with
  | PyStr s => objectid.ObjectId s
  | PyOid o => Some o
  | _ => None
  end.

(** [rating in ('1', '2', '3', '4', '5')] *)
Definition rating_values : list string := ["1"; "2"; "3"; "4"; "5"].

Definition rating_in_range (v : pyval) : bool :=
  match v with
  | PyStr s => bool_decide (s ∈ rating_values)
  | _ => false
  end.

Definition songs_rating (request : Request) : M Response :=
  let song_id := form_get request "song_id" in
  if negb (truthy song_id) then
    mret (error_response
            (errors.MissingRequireArgumentError "song_id" (path request)))
  else
    match ObjectId_of song_id with
    | None =>
        mret (error_response (errors.InvalidArgumentError song_id "song_id"))
    | Some oid =>
        let rating := form_get request "rating" in
        if negb (truthy rating) || negb (rating_in_range rating) then
          mret (error_response (errors.InvalidArgumentError rating "rating"))
        else
          matched_count ← update_one oid (py_format rating);
          if matched_count =? 0 then
            mret (error_response (errors.ObjectNotFoundError (PyOid oid)))
          else
            mret (mkResponse 200 JsonStatusOK)
    end.

(** The accumulation loop of [songs_ratings] over [ratings.items()], in
    float arithmetic: [accu += float(k) * v]. *)
Fixpoint rating_loop (items : list (string * Z)) (accu : float.t) (count : Z)
    : option (float.t * Z) :=
  match items with
  | [] => Some (accu, count)
  | (k, v) :: rest =>
      match py_float k with
      | Some f =>
          rating_loop rest (float.add accu (float.mul f (float.of_int v)))
            (count + v)
      | None => None
      end
  end.

Definition songs_ratings (request : Request) (song_id : string) : M Response :=
  match objectid.ObjectId song_id with
  | None =>
      mret (error_response
              (errors.InvalidArgumentError (PyStr song_id) "song_id"))
  | Some oid =>
      song ← find_one oid;
      match song with
      | None => raise TypeError
      | Some song =>
          match rating song with
          | None => raise KeyError
          | Some ratings =>
              let items := map_to_list ratings in
              ints ← lift ValueError (mapM py_int items.*1);
              min_rating ← lift ValueError (py_min ints);
              max_rating ← lift ValueError (py_max ints);
              '(accu, count) ← lift ValueError
                                 (rating_loop items (float.of_int 0) 0);
              if count =? 0 then raise ZeroDivisionError
              else
                let avg_rating := float.div accu (float.of_int count) in
                mret (json_response
                        (JsonStats (_id song) min_rating max_rating avg_rating))
          end
      end
  end.

(** ** Vocabulary of the specification *)

(** A query or form parameter that was not sent, or sent empty. *)
Definition absent_or_empty (o : option string) : Prop :=
  o = None ∨ o = Some EmptyString.

(** A parameter read as a non-negative integer [z]: absent or empty it
    takes its default, otherwise its text parses to [z]. *)
Definition valid_param (o : option string) (dflt z : Z) : Prop :=
  (absent_or_empty o ∧ z = dflt)
  ∨ (∃ s, o = Some s ∧ py_int s = Some z ∧ 0 ≤ z).

(** The same request with the query parameter [k] left out. *)
Definition without_arg (k : string) (request : Request) : Request :=
  mkRequest (path request) (delete k (args request)) (form request).

(** Text that fails integer parsing, or parses to a negative integer. *)
Definition invalid_number (s : string) : Prop :=
  py_int s = None ∨ (∃ z, py_int s = Some z ∧ z < 0).



(** The count recorded for a rating value on a document; an absent
    sub-document or key counts as zero. *)
Definition rating_count (key : string) (d : Song) : Z :=
  default 0 (default ∅ (rating d) !! key).

(** [z] is the smallest (largest) rating value of a mapping. *)
Definition is_min_key (m : gmap string Z) (z : Z) : Prop :=
  (∃ k v, m !! k = Some v ∧ py_int k = Some z)
  ∧ (∀ k v z', m !! k = Some v → py_int k = Some z' → z ≤ z').

Definition is_max_key (m : gmap string Z) (z : Z) : Prop :=
  (∃ k v, m !! k = Some v ∧ py_int k = Some z)
  ∧ (∀ k v z', m !! k = Some v → py_int k = Some z' → z' ≤ z).

(** [z] is the smallest (largest) rating value with a non-zero count. *)
Definition is_min_rating (m : gmap string Z) (z : Z) : Prop :=
  (∃ k v, m !! k = Some v ∧ v ≠ 0 ∧ py_int k = Some z)
  ∧ (∀ k v z', m !! k = Some v → v ≠ 0 → py_int k = Some z' → z ≤ z').

Definition is_max_rating (m : gmap string Z) (z : Z) : Prop :=
  (∃ k v, m !! k = Some v ∧ v ≠ 0 ∧ py_int k = Some z)
  ∧ (∀ k v z', m !! k = Some v → v ≠ 0 → py_int k = Some z' → z' ≤ z).

(** [sum(value * count)] and [sum(count)] over a rating mapping. *)
Definition weighted_sum (m : gmap string Z) : Z :=
  foldr (λ kv acc, default 0 (py_int kv.1) * kv.2 + acc) 0 (map_to_list m).

Definition total_count (m : gmap string Z) : Z :=
  foldr (λ kv acc, kv.2 + acc) 0 (map_to_list m).

(** The count-weighted mean of a rating mapping, as an exact rational. *)
Definition weighted_mean (m : gmap string Z) : Q :=
  (inject_Z (weighted_sum m) / inject_Z (total_count m))%Q.

(** An entry of a rating mapping on which the float arithmetic of the
    handler is exact: the rating value is a positive integer, the count
    is not negative. *)
Definition small_item (kv : string * Z) : Prop :=
  ∃ z, py_int kv.1 = Some z ∧ 0 < z < 2 ^ 53 ∧ 0 ≤ kv.2.

(** The documents that a listing or a search answers with. *)
Definition songs_of (out : result Response * World) : list Song :=
  match out.1 with
  | Ok (mkResponse _ (JsonSongs songs)) => songs
  | _ => []
  end.

(** The response of a run, when there is one. *)
Definition response_of (out : result Response * World) : option Response :=
  match out.1 with
  | Ok r => Some r
  | Raise _ => None
  end.

(** A run that only read: the collection, the text index and the
    arithmetic of the store are the ones it found, and at most one call
    went to the store. *)
Definition read_only (w w' : World) : Prop :=
  collection w' = collection w
  ∧ text_index w' = text_index w
  ∧ store_avg w' = store_avg w
  ∧ group_order w' = group_order w
  ∧ (calls w' = calls w ∨ ∃ c, calls w' = calls w ++ [c]).

(** A path segment that cannot make an identifier: it is not 24
    characters long, or one of its characters is neither a hexadecimal
    digit nor white space. *)
Definition malformed_id (s : string) : Prop :=
  String.length s ≠ 24%nat
  ∨ ∃ c, c ∈ list_ascii_of_string s
         ∧ objectid.is_hex c = false ∧ is_space c = false.

(** A document as the rating requests leave it: no rating mapping yet,
    or a mapping that is not empty, with keys among "1".."5" and positive
    counts. *)
Definition rating_wf (d : Song) : Prop :=
  ∀ m, rating d = Some m →
       m ≠ ∅ ∧ (∀ k v, m !! k = Some v → k ∈ rating_values ∧ 0 < v).

(** A series of [POST /songs/rating] requests, served one after the
    other. *)
Definition run_ratings (requests : list Request) (w : World) : World :=
  foldl (λ w request, (songs_rating request w).2) w requests.

(** The document and the counter that a rating request asks to
    increment, when it passes the validations. *)
Definition rating_target (request : Request) : option (objectid.t * string) :=
  match form request !! "song_id", form request !! "rating" with
  | Some s, Some t =>
      match objectid.ObjectId s with
      | Some oid => if bool_decide (t ∈ rating_values) then Some (oid, t) else None
      | None => None
      end
  | _, _ => None
  end.

(** What two documents at the same place of a collection share before
    and after a rating request: everything but the counts, which can
    only have grown. *)
Definition rated_from (d d' : Song) : Prop :=
  _id d' = _id d ∧ artist d' = artist d ∧ title d' = title d
  ∧ level d' = level d ∧ difficulty d' = difficulty d
  ∧ (∀ k, rating_count k d ≤ rating_count k d').

(** ** Basic facts about the builtins *)

Lemma int64_intro (z : Z) : - 2 ^ 63 ≤ z < 2 ^ 63 → int64 z = true.
Proof. unfold int64. lia. Qed.

Lemma int64_elim (z : Z) : int64 z = true → - 2 ^ 63 ≤ z < 2 ^ 63.
Proof. unfold int64. lia. Qed.

Lemma truthy_str (s : string) : truthy (PyStr s) = true ↔ s ≠ EmptyString.
Proof.
  simpl. destruct (String.eqb_spec s EmptyString); simpl; split; congruence.
Qed.

Lemma py_int_empty : py_int EmptyString = None.
Proof. reflexivity. Qed.

Lemma py_int_nonempty (s : string) (z : Z) :
  py_int s = Some z → s ≠ EmptyString.
Proof. intros H ->. discriminate H. Qed.

Lemma args_get_absent_or_empty (request : Request) (k : string) :
  absent_or_empty (args request !! k) → truthy (args_get request k) = false.
Proof. unfold args_get. intros [-> | ->]; reflexivity. Qed.

Lemma args_get_nonempty (request : Request) (k s : string) :
  args request !! k = Some s → s ≠ EmptyString →
  args_get request k = PyStr s ∧ truthy (args_get request k) = true.
Proof.
  unfold args_get. intros -> Hs. split; [done|]. by apply truthy_str.
Qed.

Lemma form_get_absent_or_empty (request : Request) (k : string) :
  absent_or_empty (form request !! k) → truthy (form_get request k) = false.
Proof. unfold form_get. intros [-> | ->]; reflexivity. Qed.

Lemma ObjectId_nonempty (s : string) (oid : objectid.t) :
  objectid.ObjectId s = Some oid → s ≠ EmptyString.
Proof. intros H ->. discriminate H. Qed.

(** ** Float arithmetic on small integers *)

Lemma rne_unit (n : Z) : float.rne n 1 = n.
Proof.
  unfold float.rne. rewrite Z.mod_1_r, Z.div_1_r. reflexivity.
Qed.

Lemma rounded_proper (neg : bool) (q q' : Q) :
  (q == q')%Q → float.rounded neg q = float.rounded neg q'.
Proof.
  intros Heq. unfold float.rounded. by rewrite (Qred_complete _ _ Heq).
Qed.

Lemma Qred_inject_Z (n : Z) : Qred (inject_Z n) = inject_Z n.
Proof. apply Qred_identity. simpl. apply Z.gcd_1_r. Qed.

Lemma ilog2_int (n : Z) : 0 < n → float.ilog2 n 1 = Z.log2 n.
Proof.
  intros Hn. unfold float.ilog2.
  change (Z.log2 1) with 0. rewrite Z.sub_0_r.
  pose proof (Z.log2_nonneg n) as Hlog.
  rewrite (proj2 (Z.leb_le 0 (Z.log2 n)) Hlog).
  destruct (Z.log2_spec n Hn) as [Hlo _].
  by rewrite Z.mul_1_l, (proj2 (Z.leb_le _ _) Hlo).
Qed.

Lemma round_mag_int (n : Z) :
  0 < n < 2 ^ 53 → float.round_mag n 1 = inject_Z n.
Proof.
  intros [Hpos Hlt]. unfold float.round_mag. rewrite (ilog2_int n Hpos).
  assert (Z.log2 n < 53) as Hlog by (apply Z.log2_lt_pow2; lia).
  pose proof (Z.log2_nonneg n) as Hlog0.
  rewrite Z.max_l by lia.
  destruct (Z.leb_spec 0 (Z.log2 n - 52)) as [He|He].
  - replace (Z.log2 n - 52) with 0 by lia.
    change (2 ^ 0) with 1. by rewrite !Z.mul_1_r, rne_unit.
  - rewrite rne_unit. rewrite <- (Qred_inject_Z n). apply Qred_complete.
    unfold Qeq. cbn [Qnum Qden inject_Z].
    rewrite Z2Pos.id by (apply Z.pow_pos_nonneg; lia). lia.
Qed.

(** Rounding leaves an integer below [2 ^ 53] as it is. *)
Lemma rounded_int (neg : bool) (q : Q) (n : Z) :
  (q == inject_Z n)%Q → 0 ≤ n < 2 ^ 53 →
  float.rounded neg q = float.Finite neg (inject_Z n).
Proof.
  intros Heq Hn. rewrite (rounded_proper neg _ _ Heq).
  unfold float.rounded. rewrite Qred_inject_Z. cbn [Qnum Qden inject_Z].
  destruct (Z.eqb_spec n 0) as [->|Hne]; [done|].
  rewrite round_mag_int by lia.
  assert (Qle_bool (inject_Z (2 ^ 1024)) (inject_Z n) = false) as ->; [|done].
  apply not_true_iff_false. rewrite Qle_bool_iff, <- Zle_Qle.
  assert (2 ^ 53 < 2 ^ 1024) by (apply Z.pow_lt_mono_r; lia). lia.
Qed.

Lemma nearest_nonneg (q : Q) :
  (0 <= q)%Q → float.nearest q = float.rounded false q.
Proof.
  intros Hq. unfold float.nearest.
  assert ((Qnum q <? 0) = false) as ->.
  { apply Z.ltb_ge. unfold Qle in Hq. simpl in Hq. lia. }
  apply rounded_proper. by apply Qabs_pos.
Qed.

Lemma nearest_int (q : Q) (n : Z) :
  (q == inject_Z n)%Q → 0 ≤ n < 2 ^ 53 →
  float.nearest q = float.Finite false (inject_Z n).
Proof.
  intros Heq Hn. rewrite nearest_nonneg.
  - by apply rounded_int.
  - rewrite Heq. change 0%Q with (inject_Z 0). rewrite <- Zle_Qle. lia.
Qed.

Lemma of_int_exact (n : Z) :
  0 ≤ n < 2 ^ 53 → float.of_int n = float.Finite false (inject_Z n).
Proof. intros Hn. unfold float.of_int. by apply nearest_int. Qed.

Lemma float_mul_int (a b : Z) :
  0 ≤ a → 0 ≤ b → a * b < 2 ^ 53 →
  float.mul (float.Finite false (inject_Z a)) (float.Finite false (inject_Z b))
  = float.Finite false (inject_Z (a * b)).
Proof.
  intros Ha Hb Hab. unfold float.mul. cbn [xorb]. apply rounded_int; [|nia].
  by rewrite inject_Z_mult.
Qed.

Lemma float_add_int (a b : Z) :
  0 ≤ a → 0 ≤ b → a + b < 2 ^ 53 →
  float.add (float.Finite false (inject_Z a)) (float.Finite false (inject_Z b))
  = float.Finite false (inject_Z (a + b)).
Proof.
  intros Ha Hb Hab. unfold float.add. cbn [float.signed andb].
  assert (Heq : (inject_Z a + inject_Z b == inject_Z (a + b))%Q)
    by (by rewrite inject_Z_plus).
  destruct (Z.eqb_spec (Qnum (inject_Z a + inject_Z b)) 0) as [Hz|Hz].
  - cbn in Hz. replace (a + b) with 0 by lia. done.
  - by apply nearest_int; [|lia].
Qed.

Lemma float_div_int (a b : Z) :
  0 ≤ a → 0 < b →
  float.div (float.Finite false (inject_Z a)) (float.Finite false (inject_Z b))
  = float.nearest (inject_Z a / inject_Z b).
Proof.
  intros Ha Hb. unfold float.div. cbn [xorb Qnum inject_Z].
  rewrite (proj2 (Z.eqb_neq b 0)) by lia.
  symmetry. apply nearest_nonneg.
  apply Qle_shift_div_l.
  - change 0%Q with (inject_Z 0). rewrite <- Zlt_Qlt. lia.
  - rewrite Qmult_0_l. change 0%Q with (inject_Z 0). rewrite <- Zle_Qle. lia.
Qed.

Lemma rne_bounds (num den lo hi : Z) :
  0 < den → lo * den ≤ num ≤ hi * den → lo ≤ float.rne num den ≤ hi.
Proof.
  intros Hden [Hlo Hhi]. unfold float.rne.
  pose proof (Z.div_mod num den) as Hdm.
  pose proof (Z.mod_pos_bound num den Hden) as Hmod.
  assert (lo ≤ num / den) by nia.
  assert (num / den ≤ hi) by nia.
  destruct (Z.compare_spec (2 * (num mod den)) den) as [Heq|Hlt|Hgt].
  - destruct (Z.even (num / den)); [lia|]. nia.
  - lia.
  - nia.
Qed.

Lemma ilog2_upper (a : Z) (b : positive) :
  0 < a → a < 2 ^ 53 * Zpos b → float.ilog2 a b ≤ 52.
Proof.
  intros Ha Hab. unfold float.ilog2.
  destruct (Z.log2_spec a Ha) as [Ha_lo Ha_hi].
  destruct (Z.log2_spec (Zpos b) (Pos2Z.is_pos b)) as [Hb_lo Hb_hi].
  pose proof (Z.log2_nonneg a) as Hla. pose proof (Z.log2_nonneg (Zpos b)) as Hlb.
  set (la := Z.log2 a) in *. set (lb := Z.log2 (Zpos b)) in *.
  destruct (Z.leb_spec 0 (la - lb)) as [Hd|Hd]; [|destruct (_ <=? _); lia].
  destruct (Z_le_gt_dec (la - lb) 52) as [Hsmall|Hbig].
  { destruct (_ <=? _); lia. }
  destruct (Z.leb_spec (Zpos b * 2 ^ (la - lb)) a) as [Hle|Hgt].
  - exfalso.
    assert (2 ^ 53 ≤ 2 ^ (la - lb)) by (apply Z.pow_le_mono_r; lia). nia.
  - destruct (Z_le_gt_dec (la - lb) 53) as [H53|H54]; [lia|]. exfalso.
    assert (2 ^ la = 2 ^ (Z.succ lb) * 2 ^ (la - lb - 1)) as Hsplit.
    { rewrite <- Z.pow_add_r by lia. f_equal. lia. }
    assert (2 ^ 53 ≤ 2 ^ (la - lb - 1)) by (apply Z.pow_le_mono_r; lia).
    nia.
Qed.

(** Rounding a number that lies between two integers below [2 ^ 53]
    gives a finite float between them. *)
Lemma rounded_between (q : Q) (lo hi : Z) :
  0 < lo → hi < 2 ^ 53 → (inject_Z lo <= q)%Q → (q <= inject_Z hi)%Q →
  ∃ r, float.rounded false q = float.Finite false r
       ∧ (inject_Z lo <= r)%Q ∧ (r <= inject_Z hi)%Q.
Proof.
  intros Hlo Hhi Hle_lo Hle_hi. unfold float.rounded.
  rewrite <- (Qred_correct q) in Hle_lo, Hle_hi.
  destruct (Qred q) as [a b]. unfold Qle in Hle_lo, Hle_hi.
  cbn [Qnum Qden inject_Z] in *. rewrite Z.mul_1_r in Hle_lo, Hle_hi.
  assert (0 < a) as Ha by nia.
  rewrite (proj2 (Z.eqb_neq a 0)) by lia.
  assert (∃ r, float.round_mag a b = r
               ∧ (inject_Z lo <= r)%Q ∧ (r <= inject_Z hi)%Q)
    as (r & -> & Hr_lo & Hr_hi).
  { unfold float.round_mag.
    pose proof (ilog2_upper a b Ha) as Hlog.
    assert (float.ilog2 a b ≤ 52) as Hl by (apply Hlog; nia).
    set (e := Z.max (float.ilog2 a b - 52) (- 1074)).
    assert (e ≤ 0) as He by lia.
    destruct (Z.leb_spec 0 e) as [He0|He0].
    - replace e with 0 by lia. change (2 ^ 0) with 1.
      rewrite !Z.mul_1_r. eexists. split; [done|].
      rewrite <- !Zle_Qle. apply rne_bounds; lia.
    - eexists. split; [done|].
      assert (0 < 2 ^ (- e)) as Hpow by (apply Z.pow_pos_nonneg; lia).
      rewrite !Qred_correct. unfold Qle. cbn [Qnum Qden inject_Z].
      rewrite Z2Pos.id, !Z.mul_1_r by done.
      apply rne_bounds; [lia|]. nia. }
  exists r. split; [|done].
  assert (Qle_bool (inject_Z (2 ^ 1024)) r = false) as ->; [|done].
  apply not_true_iff_false. rewrite Qle_bool_iff. intros Hbig.
  pose proof (Qle_trans _ _ _ Hbig Hr_hi) as H. rewrite <- Zle_Qle in H.
  assert (2 ^ 53 < 2 ^ 1024) by (apply Z.pow_lt_mono_r; lia). lia.
Qed.

(** ** GET /songs/search *)

(** C8: a search request whose [message] is missing or empty fails with
    [MissingRequireArgumentError("message", request.path)]: status 500,
    message [argument "message" is required for endpoint "/songs/search"],
    and no call reaches the store. *)
Theorem songs_search_message_required (request : Request) (w : World) :
  absent_or_empty (args request !! "message") →
  path request = "/songs/search" →
  songs_search request w
  = (Ok (error_response
           (errors.MissingRequireArgumentError "message" (path request))),
     w)
  ∧ error_response
      (errors.MissingRequireArgumentError "message" (path request))
    = mkResponse 500
        (JsonError ("argument " +:+ dquote +:+ "message" +:+ dquote
                      +:+ " is required for endpoint "
                      +:+ dquote +:+ "/songs/search" +:+ dquote)).
Proof.
  intros Hm Hp. unfold songs_search.
  rewrite (args_get_absent_or_empty _ _ Hm), Hp. by split.
Qed.

(** ** POST /songs/rating *)

Lemma update_first_no_match (oid : objectid.t) (f : Song → Song)
    (docs : list Song) :
  (∀ d, d ∈ docs → _id d ≠ oid) → update_first oid f docs = (docs, 0).
Proof.
  induction docs as [|d r IH]; intros Hno; simpl; [done|].
  rewrite bool_decide_eq_false_2 by (apply Hno; left).
  rewrite IH; [done|]. intros x Hx. apply Hno. by right.
Qed.

Lemma update_first_match (oid : objectid.t) (f : Song → Song)
    (pre post : list Song) (d : Song) :
  (∀ x, x ∈ pre → _id x ≠ oid) → _id d = oid →
  update_first oid f (pre ++ d :: post) = (pre ++ f d :: post, 1).
Proof.
  intros Hpre Hd. induction pre as [|x pre IH]; simpl.
  - by rewrite bool_decide_eq_true_2.
  - rewrite bool_decide_eq_false_2 by (apply Hpre; left).
    rewrite IH; [done|]. intros y Hy. apply Hpre. by right.
Qed.

Lemma update_first_unmatched (oid : objectid.t) (f : Song → Song)
    (docs docs' : list Song) :
  update_first oid f docs = (docs', 0) → docs' = docs.
Proof.
  revert docs'. induction docs as [|d r IH]; intros docs'; simpl.
  - by intros [= <-].
  - case_bool_decide; [discriminate|].
    destruct (update_first oid f r) as [r' n] eqn:E.
    intros [= <- ->]. f_equal. by apply IH.
Qed.

Lemma rating_in_range_str (t : string) :
  rating_in_range (PyStr t) = true ↔ t ∈ rating_values.
Proof. simpl. apply bool_decide_eq_true. Qed.

Lemma rating_values_nonempty (t : string) :
  t ∈ rating_values → t ≠ EmptyString.
Proof.
  intros H ->.
  by apply (bool_decide_eq_false_1 (EmptyString ∈ rating_values)).
Qed.

Lemma rating_count_inc (t : string) (d : Song) :
  rating_count t (inc_rating t d) = rating_count t d + 1.
Proof. unfold rating_count, inc_rating. simpl. by rewrite lookup_insert_eq. Qed.

Lemma rating_count_inc_ne (t k : string) (d : Song) :
  k ≠ t → rating_count k (inc_rating t d) = rating_count k d.
Proof.
  intros Hk. unfold rating_count, inc_rating. simpl.
  by rewrite lookup_insert_ne.
Qed.

Lemma songs_rating_missing_song_id (request : Request) (w : World) :
  absent_or_empty (form request !! "song_id") →
  songs_rating request w
  = (Ok (error_response
           (errors.MissingRequireArgumentError "song_id" (path request))),
     w).
Proof.
  intros H. unfold songs_rating.
  by rewrite (form_get_absent_or_empty _ _ H).
Qed.

Lemma songs_rating_song_id (request : Request) (s : string) :
  form request !! "song_id" = Some s → s ≠ EmptyString →
  form_get request "song_id" = PyStr s
  ∧ truthy (form_get request "song_id") = true.
Proof.
  unfold form_get. intros -> Hs. split; [done|]. by apply truthy_str.
Qed.

Lemma songs_rating_malformed_song_id (request : Request) (w : World)
    (s : string) :
  form request !! "song_id" = Some s → s ≠ EmptyString →
  objectid.ObjectId s = None →
  songs_rating request w
  = (Ok (error_response (errors.InvalidArgumentError (PyStr s) "song_id")),
     w).
Proof.
  intros Hs Hne Hid. unfold songs_rating.
  destruct (songs_rating_song_id _ _ Hs Hne) as [-> Ht].
  simpl in Ht. simpl. by rewrite Ht, Hid.
Qed.

Lemma songs_rating_invalid_rating (request : Request) (w : World)
    (s : string) (oid : objectid.t) :
  form request !! "song_id" = Some s → objectid.ObjectId s = Some oid →
  (form request !! "rating" = None
   ∨ ∃ t, form request !! "rating" = Some t ∧ t ∉ rating_values) →
  songs_rating request w
  = (Ok (error_response
           (errors.InvalidArgumentError (form_get request "rating") "rating")),
     w).
Proof.
  intros Hs Hid Hr. unfold songs_rating.
  destruct (songs_rating_song_id _ _ Hs (ObjectId_nonempty _ _ Hid)) as [-> Ht].
  simpl in Ht. simpl. rewrite Ht, Hid. simpl.
  destruct Hr as [Hr | (t & Hr & Hnot)]; unfold form_get; rewrite Hr; simpl.
  - done.
  - rewrite (bool_decide_eq_false_2 _ Hnot). simpl.
    by rewrite orb_true_r.
Qed.

Lemma songs_rating_update (request : Request) (w : World)
    (s t : string) (oid : objectid.t) :
  form request !! "song_id" = Some s → objectid.ObjectId s = Some oid →
  form request !! "rating" = Some t → t ∈ rating_values →
  songs_rating request w
  = let '(docs, n) := update_first oid (inc_rating t) (collection w) in
    (Ok (if n =? 0
         then error_response (errors.ObjectNotFoundError (PyOid oid))
         else mkResponse 200 JsonStatusOK),
     set_collection docs (log (call_update_one oid t) w)).
Proof.
  intros Hs Hid Hr Hin. unfold songs_rating.
  destruct (songs_rating_song_id _ _ Hs (ObjectId_nonempty _ _ Hid)) as [-> Ht].
  simpl in Ht. simpl. rewrite Ht, Hid. simpl.
  unfold form_get. rewrite Hr. simpl.
  rewrite (bool_decide_eq_true_2 _ Hin).
  pose proof (rating_values_nonempty _ Hin) as Hne.
  apply truthy_str in Hne. simpl in Hne. rewrite Hne. simpl.
  unfold mbind, M_bind, update_one.
  destruct (update_first oid (inc_rating t) (collection w)) as [docs n].
  by destruct (n =? 0).
Qed.

(** [songs_rating] never lets an exception escape. *)
Lemma songs_rating_total (request : Request) (w : World) :
  ∃ r w', songs_rating request w = (Ok r, w').
Proof.
  destruct (form request !! "song_id") as [s|] eqn:Hs;
    [destruct (decide (s = EmptyString)) as [->|Hne]|].
  - rewrite songs_rating_missing_song_id by (by right). eauto.
  - destruct (objectid.ObjectId s) as [oid|] eqn:Hid.
    + destruct (form request !! "rating") as [t|] eqn:Hr;
        [destruct (decide (t ∈ rating_values)) as [Hin|Hnot]|].
      * rewrite (songs_rating_update _ _ _ _ _ Hs Hid Hr Hin).
        destruct (update_first _ _ _). eauto.
      * erewrite songs_rating_invalid_rating; eauto.
      * erewrite songs_rating_invalid_rating; eauto.
    + erewrite songs_rating_malformed_song_id; eauto.
  - rewrite songs_rating_missing_song_id by (by left). eauto.
Qed.

(** C4, as the handler has it: a missing or empty [song_id] fails with
    [MissingRequireArgumentError("song_id", path)], status 500; a
    non-empty [song_id] that [ObjectId] refuses (a text that is not 24
    characters long, or that [bytes.fromhex] cannot read) fails with
    [InvalidArgumentError(song_id, "song_id")], status 500; then a
    missing [rating], or one outside "1".."5", fails with
    [InvalidArgumentError(rating, "rating")], status 500; then an
    identifier matching no document fails with
    [ObjectNotFoundError(song_id)], status 404; otherwise the counter
    [rating[<value>]] of the matching document goes up by exactly one,
    nothing else changes, and the response is 200 with [{"status": "OK"}]. *)
Theorem songs_rating_characterization (request : Request) (w : World) :
  (absent_or_empty (form request !! "song_id") →
   songs_rating request w
   = (Ok (mkResponse 500
            (JsonError
               (errors.message
                  (errors.MissingRequireArgumentError "song_id"
                     (path request))))),
      w))
  ∧ (∀ s, form request !! "song_id" = Some s → s ≠ EmptyString →
          objectid.ObjectId s = None →
     songs_rating request w
     = (Ok (mkResponse 500
              (JsonError
                 (errors.message
                    (errors.InvalidArgumentError (PyStr s) "song_id")))),
        w))
  ∧ (∀ s oid, form request !! "song_id" = Some s →
              objectid.ObjectId s = Some oid →
              form request !! "rating" = None →
     songs_rating request w
     = (Ok (mkResponse 500
              (JsonError
                 (errors.message
                    (errors.InvalidArgumentError PyNone "rating")))),
        w))
  ∧ (∀ s oid t, form request !! "song_id" = Some s →
                objectid.ObjectId s = Some oid →
                form request !! "rating" = Some t → t ∉ rating_values →
     songs_rating request w
     = (Ok (mkResponse 500
              (JsonError
                 (errors.message
                    (errors.InvalidArgumentError (PyStr t) "rating")))),
        w))
  ∧ (∀ s oid t, form request !! "song_id" = Some s →
                objectid.ObjectId s = Some oid →
                form request !! "rating" = Some t → t ∈ rating_values →
                (∀ d, d ∈ collection w → _id d ≠ oid) →
     songs_rating request w
     = (Ok (mkResponse 404
              (JsonError
                 (errors.message (errors.ObjectNotFoundError (PyOid oid))))),
        log (call_update_one oid t) w))
  ∧ (∀ s oid t pre d post,
       form request !! "song_id" = Some s →
       objectid.ObjectId s = Some oid →
       form request !! "rating" = Some t → t ∈ rating_values →
       collection w = pre ++ d :: post →
       (∀ x, x ∈ pre → _id x ≠ oid) → _id d = oid →
     songs_rating request w
     = (Ok (mkResponse 200 JsonStatusOK),
        set_collection (pre ++ inc_rating t d :: post)
          (log (call_update_one oid t) w))
     ∧ rating_count t (inc_rating t d) = rating_count t d + 1
     ∧ (∀ k, k ≠ t → rating_count k (inc_rating t d) = rating_count k d)
     ∧ _id (inc_rating t d) = _id d
     ∧ artist (inc_rating t d) = artist d
     ∧ title (inc_rating t d) = title d
     ∧ level (inc_rating t d) = level d
     ∧ difficulty (inc_rating t d) = difficulty d).
Proof.
  split; [|split; [|split; [|split; [|split]]]].
  - apply songs_rating_missing_song_id.
  - apply songs_rating_malformed_song_id.
  - intros s oid Hs Hid Hr.
    rewrite (songs_rating_invalid_rating _ _ _ _ Hs Hid) by (by left).
    unfold form_get. by rewrite Hr.
  - intros s oid t Hs Hid Hr Hnot.
    rewrite (songs_rating_invalid_rating _ _ _ _ Hs Hid) by (right; eauto).
    unfold form_get. by rewrite Hr.
  - intros s oid t Hs Hid Hr Hin Hno.
    rewrite (songs_rating_update _ _ _ _ _ Hs Hid Hr Hin).
    rewrite (update_first_no_match _ _ _ Hno). simpl.
    by destruct w.
  - intros s oid t pre d post Hs Hid Hr Hin Hdocs Hpre Hd.
    rewrite (songs_rating_update _ _ _ _ _ Hs Hid Hr Hin).
    rewrite Hdocs, (update_first_match _ _ _ _ _ Hpre Hd). simpl.
    repeat split; auto using rating_count_inc, rating_count_inc_ne.
Qed.

(** Every run of [songs_rating] either stops at a validation, with status
    500 and the world untouched, or passes every validation and issues
    exactly one update. *)
Lemma songs_rating_cases (request : Request) (w w' : World) (r : Response) :
  songs_rating request w = (Ok r, w') →
  (status r = 500 ∧ w' = w)
  ∨ (∃ s oid t docs n,
       form request !! "song_id" = Some s
       ∧ objectid.ObjectId s = Some oid
       ∧ form request !! "rating" = Some t
       ∧ t ∈ rating_values
       ∧ update_first oid (inc_rating t) (collection w) = (docs, n)
       ∧ w' = set_collection docs (log (call_update_one oid t) w)
       ∧ status r = (if n =? 0 then 404 else 200)).
Proof.
  destruct (form request !! "song_id") as [s|] eqn:Hs;
    [destruct (decide (s = EmptyString)) as [->|Hne]|].
  - rewrite songs_rating_missing_song_id by (by right).
    intros [= <- <-]. by left.
  - destruct (objectid.ObjectId s) as [oid|] eqn:Hid.
    + destruct (form request !! "rating") as [t|] eqn:Hr;
        [destruct (decide (t ∈ rating_values)) as [Hin|Hnot]|].
      * rewrite (songs_rating_update _ _ _ _ _ Hs Hid Hr Hin).
        destruct (update_first _ _ _) as [docs n] eqn:Hup.
        intros [= <- <-]. right. exists s, oid, t, docs, n.
        repeat (split; [done|]). by destruct (n =? 0).
      * erewrite songs_rating_invalid_rating by eauto.
        intros [= <- <-]. by left.
      * erewrite songs_rating_invalid_rating by eauto.
        intros [= <- <-]. by left.
    + erewrite songs_rating_malformed_song_id by eauto.
      intros [= <- <-]. by left.
  - rewrite songs_rating_missing_song_id by (by left).
    intros [= <- <-]. by left.
Qed.

(** C10: a response of [songs_rating] with status 500 leaves the store
    as it was and no update was issued; no response other than 200 comes
    with a modified document; and an update is only ever issued after the
    identifier and the rating passed their validations. *)
Theorem songs_rating_errors_preserve_store (request : Request)
    (w w' : World) (r : Response) :
  songs_rating request w = (Ok r, w') →
  (status r = 500 → w' = w)
  ∧ (status r ≠ 200 → collection w' = collection w)
  ∧ (calls w' ≠ calls w →
     ∃ s oid t,
       form request !! "song_id" = Some s
       ∧ objectid.ObjectId s = Some oid
       ∧ form request !! "rating" = Some t
       ∧ t ∈ rating_values
       ∧ calls w' = calls w ++ [call_update_one oid t]).
Proof.
  intros Hrun.
  destruct (songs_rating_cases _ _ _ _ Hrun)
    as [[Hst ->] | (s & oid & t & docs & n & Hs & Hid & Hr & Hin & Hup & -> & Hst)].
  - repeat split; congruence.
  - split; [|split].
    + rewrite Hst. by destruct (n =? 0).
    + intros Hne. rewrite Hst in Hne. simpl.
      destruct (Z.eqb_spec n 0) as [-> | _]; [|done].
      by apply update_first_unmatched in Hup.
    + intros _. by exists s, oid, t.
Qed.

(** ** GET /songs *)

(** The value [request.args.get(k) or dflt] of a parameter read as [z]:
    either it is falsy and already the integer [z], or it is truthy and
    [int] turns it into [z]. *)
Lemma valid_param_value (request : Request) (k : string) (dflt z : Z) :
  0 ≤ dflt →
  valid_param (args request !! k) dflt z →
  let v := py_or (args_get request k) (PyInt dflt) in
  0 ≤ z
  ∧ ((truthy v = false ∧ v = PyInt z)
     ∨ (truthy v = true ∧ py_int_of v = Some z)).
Proof.
  intros Hd [[Habs ->] | (s & Hs & Hparse & Hz)]; simpl.
  - split; [done|]. unfold py_or.
    rewrite (args_get_absent_or_empty _ _ Habs).
    destruct (truthy (PyInt dflt)) eqn:Ht; [by right | by left].
  - split; [done|]. right. unfold py_or.
    destruct (args_get_nonempty _ _ _ Hs (py_int_nonempty _ _ Hparse))
      as [-> Ht].
    by rewrite Ht.
Qed.

Lemma invalid_param_value (request : Request) (k v : string) (dflt : Z) :
  args request !! k = Some v → v ≠ EmptyString → invalid_number v →
  py_or (args_get request k) (PyInt dflt) = PyStr v
  ∧ truthy (PyStr v) = true
  ∧ (py_int v = None ∨ ∃ z, py_int v = Some z ∧ (z <? 0) = true).
Proof.
  intros Hv Hne Hinv. unfold py_or.
  destruct (args_get_nonempty _ _ _ Hv Hne) as [-> Ht].
  rewrite Ht. split; [done|]. split; [done|].
  destruct Hinv as [H | (z & H & Hz)]; [by left|].
  right. exists z. split; [done|]. by apply Z.ltb_lt.
Qed.

(** One round of the validation loop on a parameter that is in order. *)
Lemma validate_args_step (arg : string) (v : pyval) (z : Z)
    (rest : list (string * pyval)) (args : gmap string pyval) :
  0 ≤ z →
  args !! arg = Some v →
  (truthy v = false ∧ v = PyInt z) ∨ (truthy v = true ∧ py_int_of v = Some z) →
  validate_args ((arg, v) :: rest) args
  = validate_args rest (<[arg := PyInt z]> args).
Proof.
  intros Hz Hlook [[Ht ->] | [Ht Hint]]; cbn [validate_args]; rewrite Ht.
  - by rewrite insert_id.
  - rewrite Hint. by rewrite (proj2 (Z.ltb_ge z 0) Hz).
Qed.

(** One round of the validation loop on an offending parameter. *)
Lemma validate_args_reject (arg v : string)
    (rest : list (string * pyval)) (args : gmap string pyval) :
  truthy (PyStr v) = true →
  (py_int v = None ∨ ∃ z, py_int v = Some z ∧ (z <? 0) = true) →
  validate_args ((arg, PyStr v) :: rest) args
  = inl (errors.InvalidArgumentError (PyStr v) arg).
Proof.
  intros Ht Hbad. cbn [validate_args]. rewrite Ht. cbn [py_int_of].
  destruct Hbad as [-> | (z & -> & ->)]; reflexivity.
Qed.

(** The listing for parameters that are in order: one [find] with
    [skip = p * n] and [limit = n]. *)
Lemma get_songs_find (request : Request) (w : World) (p n : Z) :
  valid_param (args request !! "p") 0 p →
  valid_param (args request !! "n") 10 n →
  get_songs request w
  = (songs ← find (p * n) n; mret (json_response (JsonSongs songs))) w.
Proof.
  intros Hp Hn.
  apply valid_param_value in Hp as [Hp0 Hp]; [|lia].
  apply valid_param_value in Hn as [Hn0 Hn]; [|lia].
  unfold get_songs. cbn zeta in *.
  set (vp := py_or (args_get request "p") (PyInt 0)) in *.
  set (vn := py_or (args_get request "n") (PyInt 10)) in *.
  cbn [list_to_map foldr uncurry].
  rewrite (validate_args_step "p" vp p) by (done || by simplify_map_eq).
  rewrite (validate_args_step "n" vn n) by (done || by simplify_map_eq).
  cbn [validate_args]. by simplify_map_eq.
Qed.

Lemma get_songs_overflow (request : Request) (w : World) (p n : Z) :
  valid_param (args request !! "p") 0 p →
  valid_param (args request !! "n") 10 n →
  int64 (p * n) && int64 n = false →
  get_songs request w = (Raise OverflowError, log (call_find (p * n) n) w).
Proof.
  intros Hp Hn H64. rewrite (get_songs_find _ _ _ _ Hp Hn).
  pose proof Hp as Hp'. apply valid_param_value in Hp' as [Hp0 _]; [|lia].
  pose proof Hn as Hn'. apply valid_param_value in Hn' as [Hn0 _]; [|lia].
  unfold mbind, M_bind, find. cbn zeta.
  rewrite (proj2 (Z.ltb_ge (p * n) 0)) by nia.
  by rewrite H64.
Qed.

Lemma get_songs_valid (request : Request) (w : World) (p n : Z) :
  valid_param (args request !! "p") 0 p →
  valid_param (args request !! "n") 10 n →
  int64 (p * n) = true → int64 n = true →
  get_songs request w
  = (Ok (mkResponse 200
           (JsonSongs
              (let rest := drop (Z.to_nat (p * n)) (collection w) in
               if n =? 0 then rest else take (Z.to_nat n) rest))),
     log (call_find (p * n) n) w).
Proof.
  intros Hp Hn Hskip Hlimit. rewrite (get_songs_find _ _ _ _ Hp Hn).
  pose proof Hp as Hp'. apply valid_param_value in Hp' as [Hp0 _]; [|lia].
  pose proof Hn as Hn'. apply valid_param_value in Hn' as [Hn0 _]; [|lia].
  unfold mbind, M_bind, find, mret, M_ret, json_response. cbn zeta.
  rewrite (proj2 (Z.ltb_ge (p * n) 0)) by nia.
  rewrite Hskip, Hlimit. cbn [andb negb].
  by rewrite Zabs2Nat.abs_nat_nonneg.
Qed.

Lemma get_songs_invalid_p (request : Request) (w : World) (v : string) :
  args request !! "p" = Some v → v ≠ EmptyString → invalid_number v →
  get_songs request w
  = (Ok (error_response (errors.InvalidArgumentError (PyStr v) "p")), w).
Proof.
  intros Hv Hne Hinv.
  destruct (invalid_param_value request "p" v 0 Hv Hne Hinv) as (Hval & Ht & Hbad).
  unfold get_songs. cbn zeta. rewrite Hval.
  by rewrite (validate_args_reject "p" v _ _ Ht Hbad).
Qed.

Lemma get_songs_invalid_n (request : Request) (w : World) (v : string)
    (p : Z) :
  args request !! "n" = Some v → v ≠ EmptyString → invalid_number v →
  valid_param (args request !! "p") 0 p →
  get_songs request w
  = (Ok (error_response (errors.InvalidArgumentError (PyStr v) "n")), w).
Proof.
  intros Hv Hne Hinv Hp.
  destruct (invalid_param_value request "n" v 10 Hv Hne Hinv) as (Hval & Ht & Hbad).
  apply valid_param_value in Hp as [Hp0 Hp]; [|lia].
  unfold get_songs. cbn zeta in *. rewrite Hval.
  set (vp := py_or (args_get request "p") (PyInt 0)) in *.
  cbn [list_to_map foldr uncurry].
  rewrite (validate_args_step "p" vp p) by (done || by simplify_map_eq).
  by rewrite (validate_args_reject "n" v _ _ Ht Hbad).
Qed.

(** C5, as the handler has it: a non-empty value of [p] that fails
    integer parsing or is negative is answered by status 500 and the
    message ["<value>" is not a valid argument for parameter "p"]; so is
    such a value of [n], with the name [n], when [p] is in order.  ([p] is
    checked first, and an empty value counts as absent.) *)
Theorem get_songs_invalid_argument (request : Request) (w : World) :
  (∀ v, args request !! "p" = Some v → v ≠ EmptyString → invalid_number v →
     get_songs request w
     = (Ok (mkResponse 500
              (JsonError
                 (dquote +:+ v +:+ dquote
                    +:+ " is not a valid argument for parameter "
                    +:+ dquote +:+ "p" +:+ dquote))),
        w))
  ∧ (∀ v p, args request !! "n" = Some v → v ≠ EmptyString →
            invalid_number v → valid_param (args request !! "p") 0 p →
     get_songs request w
     = (Ok (mkResponse 500
              (JsonError
                 (dquote +:+ v +:+ dquote
                    +:+ " is not a valid argument for parameter "
                    +:+ dquote +:+ "n" +:+ dquote))),
        w)).
Proof.
  split.
  - intros v Hv Hne Hinv. by rewrite (get_songs_invalid_p _ _ _ Hv Hne Hinv).
  - intros v p Hv Hne Hinv Hp.
    by rewrite (get_songs_invalid_n _ _ _ _ Hv Hne Hinv Hp).
Qed.

(** X1: for a page size of at least one the listing is the slice of the
    collection that starts at [p * n] and has at most [n] documents, in
    insertion order, with status 200, as long as [n] and [p * n] fit the
    64 bits of the driver's integers. *)
Lemma get_songs_page (request : Request) (w : World) (p n : Z) :
  valid_param (args request !! "p") 0 p →
  valid_param (args request !! "n") 10 n →
  0 < n → n < 2 ^ 63 → p * n < 2 ^ 63 →
  ∃ songs,
    get_songs request w
    = (Ok (mkResponse 200 (JsonSongs songs)), log (call_find (p * n) n) w)
    ∧ songs = take (Z.to_nat n) (drop (Z.to_nat (p * n)) (collection w))
    ∧ Z.of_nat (length songs)
      = Z.max 0 (Z.min n (Z.of_nat (length (collection w)) - p * n)).
Proof.
  intros Hp Hn Hpos Hn64 Hpn64.
  assert (0 ≤ p * n) as Hskip.
  { apply valid_param_value in Hp as [Hp0 _]; [nia | lia]. }
  eexists. split; [|split; [reflexivity|]].
  - rewrite (get_songs_valid _ _ _ _ Hp Hn) by (apply int64_intro; lia).
    cbn zeta. by rewrite (proj2 (Z.eqb_neq n 0)) by lia.
  - rewrite length_take, length_drop.
    revert Hskip. generalize (p * n). intros skip Hskip. lia.
Qed.

(** C3 at a page size of zero: the driver reads [limit = 0] as no limit,
    so the whole collection is returned whatever the page. *)
Theorem get_songs_zero_page_size (request : Request) (w : World) (p : Z) :
  valid_param (args request !! "p") 0 p →
  valid_param (args request !! "n") 10 0 →
  get_songs request w
  = (Ok (mkResponse 200 (JsonSongs (collection w))), log (call_find 0 0) w).
Proof.
  intros Hp Hn. rewrite (get_songs_valid _ _ _ _ Hp Hn).
  - by rewrite Z.mul_0_r.
  - by rewrite Z.mul_0_r.
  - done.
Qed.

(** ** Empty query parameters *)

Lemma args_get_without_eq (request : Request) (k : string) :
  args_get (without_arg k request) k = PyNone.
Proof. unfold args_get, without_arg. simpl. by rewrite lookup_delete_eq. Qed.

Lemma args_get_without_ne (request : Request) (k k' : string) :
  k ≠ k' → args_get (without_arg k request) k' = args_get request k'.
Proof.
  intros Hk. unfold args_get, without_arg. simpl.
  by rewrite lookup_delete_ne.
Qed.

Lemma args_get_empty (request : Request) (k : string) :
  args request !! k = Some EmptyString → args_get request k = PyStr EmptyString.
Proof. unfold args_get. by intros ->. Qed.

Lemma get_songs_empty_p (request : Request) (w : World) :
  args request !! "p" = Some EmptyString →
  get_songs request w = get_songs (without_arg "p" request) w.
Proof.
  intros H. unfold get_songs.
  rewrite args_get_without_eq, (args_get_without_ne _ "p" "n") by done.
  by rewrite (args_get_empty _ _ H).
Qed.

Lemma get_songs_empty_n (request : Request) (w : World) :
  args request !! "n" = Some EmptyString →
  get_songs request w = get_songs (without_arg "n" request) w.
Proof.
  intros H. unfold get_songs.
  rewrite args_get_without_eq, (args_get_without_ne _ "n" "p") by done.
  by rewrite (args_get_empty _ _ H).
Qed.

Lemma get_avg_difficulty_empty_level (request : Request) (w : World) :
  args request !! "level" = Some EmptyString →
  get_avg_difficulty request w
  = get_avg_difficulty (without_arg "level" request) w.
Proof.
  intros H. unfold get_avg_difficulty.
  by rewrite args_get_without_eq, (args_get_empty _ _ H).
Qed.

Lemma get_avg_difficulty_unfiltered (request : Request) (w : World) :
  absent_or_empty (args request !! "level") →
  get_avg_difficulty request w
  = (Ok (mkResponse 200 (JsonRows (group_rows w))),
     log (call_aggregate [group_level_avg_difficulty]) w).
Proof.
  intros H. unfold get_avg_difficulty.
  by rewrite (args_get_absent_or_empty _ _ H).
Qed.

(** C9: an empty [p] or [n] on [GET /songs] is handled as the request
    without that parameter; with both empty or absent the defaults
    [p = 0] and [n = 10] apply and the response is 200 with the first ten
    documents.  An empty [level] on [GET /songs/avg/difficulty] is handled
    as the request without it, and the aggregation runs with the grouping
    stage alone. *)
Theorem empty_parameter_is_absent (request : Request) (w : World) :
  (args request !! "p" = Some EmptyString →
   get_songs request w = get_songs (without_arg "p" request) w)
  ∧ (args request !! "n" = Some EmptyString →
     get_songs request w = get_songs (without_arg "n" request) w)
  ∧ (absent_or_empty (args request !! "p") →
     absent_or_empty (args request !! "n") →
     get_songs request w
     = (Ok (mkResponse 200 (JsonSongs (take 10 (collection w)))),
        log (call_find 0 10) w))
  ∧ (args request !! "level" = Some EmptyString →
     get_avg_difficulty request w
     = get_avg_difficulty (without_arg "level" request) w)
  ∧ (absent_or_empty (args request !! "level") →
     get_avg_difficulty request w
     = (Ok (mkResponse 200
              (JsonRows
                 (group_order w
                    (avg_row (store_avg w)
                       <$> group_by_level (collection w))))),
        log (call_aggregate [group_level_avg_difficulty]) w)).
Proof.
  split; [apply get_songs_empty_p|].
  split; [apply get_songs_empty_n|].
  split; [|split; [apply get_avg_difficulty_empty_level
                  |apply get_avg_difficulty_unfiltered]].
  intros Hp Hn. by rewrite (get_songs_valid request w 0 10); [|left..| |].
Qed.

(** ** GET /songs/avg/difficulty *)










Lemma get_avg_difficulty_level (request : Request) (w : World)
    (s : string) (l : Z) :
  args request !! "level" = Some s → py_int s = Some l →
  get_avg_difficulty request w
  = (if int64 l
     then Ok (mkResponse 200
                (JsonRows (filter (λ r, row_id r = l) (group_rows w))))
     else Raise OverflowError,
     log (call_aggregate [group_level_avg_difficulty; match_id l]) w).
Proof.
  intros Hs Hparse. unfold get_avg_difficulty.
  destruct (args_get_nonempty _ _ _ Hs (py_int_nonempty _ _ Hparse))
    as [-> Ht].
  rewrite Ht. cbn [py_int_of]. rewrite Hparse.
  unfold mbind, M_bind, aggregate. cbn [app forallb encodable andb].
  rewrite andb_true_r. by destruct (int64 l).
Qed.


(** ** GET /songs/avg/rating/<song_id> *)

Lemma first_with_id_none (oid : objectid.t) (docs : list Song) :
  (∀ d, d ∈ docs → _id d ≠ oid) → first_with_id oid docs = None.
Proof.
  unfold first_with_id. induction docs as [|d r IH]; intros Hno; simpl; [done|].
  rewrite bool_decide_eq_false_2 by (apply Hno; left).
  apply IH. intros x Hx. apply Hno. by right.
Qed.

Lemma first_with_id_some (oid : objectid.t) (docs : list Song) (song : Song) :
  first_with_id oid docs = Some song → song ∈ docs ∧ _id song = oid.
Proof.
  unfold first_with_id. intros H. apply find_some in H as [Hin Hid].
  split; [by apply list_elem_of_In | by apply bool_decide_eq_true in Hid].
Qed.

(** C1 on the code: for a well-formed identifier that no document has,
    [find_one] gives [None] and subscripting it raises [TypeError], which
    nothing catches; no 404 response is built. *)
Theorem songs_ratings_unknown_id_raises (request : Request) (w : World)
    (song_id : string) (oid : objectid.t) :
  objectid.ObjectId song_id = Some oid →
  (∀ d, d ∈ collection w → _id d ≠ oid) →
  songs_ratings request song_id w
  = (Raise TypeError, log (call_find_one oid) w).
Proof.
  intros Hid Hno. unfold songs_ratings. rewrite Hid.
  unfold mbind, M_bind, find_one.
  by rewrite (first_with_id_none _ _ Hno).
Qed.

Lemma foldl_min_spec (xs : list Z) (x : Z) :
  foldl Z.min x xs ∈ x :: xs ∧ (∀ y, y ∈ x :: xs → foldl Z.min x xs ≤ y).
Proof.
  revert x. induction xs as [|a xs IH]; intros x; simpl.
  - split; [left|]. intros y ->%list_elem_of_singleton. lia.
  - destruct (IH (Z.min x a)) as [Hin Hle]. split.
    + apply elem_of_cons in Hin as [-> | Hin]; [|by do 2 right].
      destruct (Z.min_spec x a) as [[_ ->] | [_ ->]]; [left | right; left].
    + intros y Hy. assert (foldl Z.min (Z.min x a) xs ≤ Z.min x a) as Hm
        by (apply Hle; left).
      apply elem_of_cons in Hy as [-> | [-> | Hy]%elem_of_cons]; [lia | lia |].
      apply Hle. by right.
Qed.

Lemma foldl_max_spec (xs : list Z) (x : Z) :
  foldl Z.max x xs ∈ x :: xs ∧ (∀ y, y ∈ x :: xs → y ≤ foldl Z.max x xs).
Proof.
  revert x. induction xs as [|a xs IH]; intros x; simpl.
  - split; [left|]. intros y ->%list_elem_of_singleton. lia.
  - destruct (IH (Z.max x a)) as [Hin Hle]. split.
    + apply elem_of_cons in Hin as [-> | Hin]; [|by do 2 right].
      destruct (Z.max_spec x a) as [[_ ->] | [_ ->]]; [right; left | left].
    + intros y Hy. assert (Z.max x a ≤ foldl Z.max (Z.max x a) xs) as Hm
        by (apply Hle; left).
      apply elem_of_cons in Hy as [-> | [-> | Hy]%elem_of_cons]; [lia | lia |].
      apply Hle. by right.
Qed.

Lemma py_min_spec (l : list Z) :
  l ≠ [] → ∃ z, py_min l = Some z ∧ z ∈ l ∧ (∀ y, y ∈ l → z ≤ y).
Proof.
  destruct l as [|x xs]; [done|]. intros _. eexists. split; [done|].
  apply foldl_min_spec.
Qed.

Lemma py_max_spec (l : list Z) :
  l ≠ [] → ∃ z, py_max l = Some z ∧ z ∈ l ∧ (∀ y, y ∈ l → y ≤ z).
Proof.
  destruct l as [|x xs]; [done|]. intros _. eexists. split; [done|].
  apply foldl_max_spec.
Qed.

(** The list comprehension [[int(i) for i in keys]] when every key
    parses. *)
Lemma mapM_py_int_spec (keys : list string) :
  Forall (λ k, is_Some (py_int k)) keys →
  ∃ ints, mapM py_int keys = Some ints
          ∧ length ints = length keys
          ∧ (∀ z, z ∈ ints ↔ ∃ k, k ∈ keys ∧ py_int k = Some z).
Proof.
  induction 1 as [|k keys [z Hz] _ (ints & Hm & Hlen & Helem)].
  - exists []. split; [done|]. split; [done|]. intros z. split.
    + by intros ?%elem_of_nil.
    + by intros (k & ?%elem_of_nil & _).
  - exists (z :: ints). split; [|split].
    + cbn. rewrite Hz. cbn. by rewrite Hm.
    + simpl. by rewrite Hlen.
    + intros z'. rewrite elem_of_cons, Helem. split.
      * intros [-> | (k' & Hk' & Hz')].
        -- exists k. split; [left | done].
        -- exists k'. split; [by right | done].
      * intros (k' & [-> | Hk']%elem_of_cons & Hz').
        -- left. congruence.
        -- right. by exists k'.
Qed.

Lemma digit_of_nonneg (c : ascii) (d : Z) : digit_of c = Some d → 0 ≤ d.
Proof.
  unfold digit_of. intros H.
  destruct (_ && _) eqn:E in H; [|done]. injection H as <-. lia.
Qed.

Lemma int_digits_nonneg (s : string) (acc : Z) (prev : bool) (z : Z) :
  0 ≤ acc → int_digits acc prev s = Some z → 0 ≤ z.
Proof.
  revert acc prev. induction s as [|c s IH]; intros acc prev Hacc; simpl.
  - destruct prev; [by intros [= <-] | done].
  - destruct (digit_of c) as [d|] eqn:Hd.
    + apply IH. apply digit_of_nonneg in Hd. lia.
    + destruct (_ && _); [by apply IH | done].
Qed.

Lemma int_literal_nonneg (s : string) (neg : bool) (mag : Z) :
  int_literal s = Some (neg, mag) → 0 ≤ mag.
Proof.
  unfold int_literal. intros H.
  assert (∀ b t, pair b <$> int_digits 0 false t = Some (neg, mag) → 0 ≤ mag)
    as Hdigits.
  { intros b t (z & Hz & [= -> ->])%fmap_Some.
    by apply (int_digits_nonneg t 0 false). }
  destruct (lstrip (rstrip s)) as [|c r]; [by eapply Hdigits|].
  destruct c as [[] [] [] [] [] [] [] []]; by eapply Hdigits.
Qed.

(** [float(k)] on a key that [int(k)] reads. *)
Lemma py_float_is_Some (k : string) : is_Some (py_int k) → is_Some (py_float k).
Proof.
  unfold py_int, py_float. intros [z Hz].
  destruct (int_literal (int_text k)); [by eexists | done].
Qed.

Lemma py_float_int (k : string) (z : Z) :
  py_int k = Some z → 0 < z < 2 ^ 53 →
  py_float k = Some (float.Finite false (inject_Z z)).
Proof.
  unfold py_int, py_float. intros Hz Hrange.
  destruct (int_literal (int_text k)) as [[neg mag]|] eqn:E; [|done].
  apply int_literal_nonneg in E. cbn in Hz. injection Hz as <-.
  destruct neg; [lia|]. cbn [fmap option_fmap option_map fst snd]. f_equal.
  apply rounded_int; [reflexivity | lia].
Qed.

(** The accumulation loop when every key parses: it ends, and [count]
    has grown by the sum of the counts. *)
Lemma rating_loop_count (items : list (string * Z)) (accu : float.t)
    (count : Z) :
  Forall (λ kv, is_Some (py_int kv.1)) items →
  ∃ accu',
    rating_loop items accu count
    = Some (accu', count + foldr (λ kv acc, kv.2 + acc) 0 items).
Proof.
  intros Hall. revert accu count.
  induction Hall as [|[k v] items Hk _ IH]; intros accu count.
  - exists accu. simpl. f_equal. f_equal. lia.
  - apply py_float_is_Some in Hk as [f Hf]. cbn [fst] in Hf.
    cbn [rating_loop foldr fst snd]. rewrite Hf.
    destruct (IH (float.add accu (float.mul f (float.of_int v))) (count + v))
      as (accu' & ->).
    exists accu'. f_equal. f_equal. lia.
Qed.

Lemma weighted_items_nonneg (items : list (string * Z)) :
  Forall small_item items →
  0 ≤ foldr (λ kv acc, default 0 (py_int kv.1) * kv.2 + acc) 0 items.
Proof.
  induction 1 as [|[k v] items (z & Hz & Hrange & Hv) _ IH]; [done|].
  simpl in *. rewrite Hz. simpl. nia.
Qed.

Lemma total_items_le_weighted (items : list (string * Z)) :
  Forall small_item items →
  0 ≤ foldr (λ kv acc, kv.2 + acc) 0 items
  ∧ foldr (λ kv acc, kv.2 + acc) 0 items
    ≤ foldr (λ kv acc, default 0 (py_int kv.1) * kv.2 + acc) 0 items.
Proof.
  induction 1 as [|[k v] items (z & Hz & Hrange & Hv) _ IH]; [done|].
  simpl in *. rewrite Hz. simpl. nia.
Qed.

(** The accumulation loop on such a mapping, as long as the sum of value
    times count stays below [2 ^ 53]: every product and every partial sum
    is an integer that floats represent, so [accu] ends as the exact
    sum. *)
Lemma rating_loop_exact (items : list (string * Z)) (a count : Z) :
  Forall small_item items →
  0 ≤ a →
  a + foldr (λ kv acc, default 0 (py_int kv.1) * kv.2 + acc) 0 items < 2 ^ 53 →
  rating_loop items (float.Finite false (inject_Z a)) count
  = Some (float.Finite false
            (inject_Z
               (a + foldr (λ kv acc, default 0 (py_int kv.1) * kv.2 + acc)
                      0 items)),
          count + foldr (λ kv acc, kv.2 + acc) 0 items).
Proof.
  intros Hall. revert a count.
  induction Hall as [|[k v] items (z & Hz & Hrange & Hv) Hall IH];
    intros a count Ha Hbound.
  - simpl. by rewrite !Z.add_0_r.
  - pose proof (weighted_items_nonneg items Hall) as Hrest.
    simpl in Hz, Hv, Hbound, Hrest |- *. rewrite Hz in Hbound |- *.
    simpl in Hbound |- *. rewrite (py_float_int k z Hz Hrange).
    assert (0 ≤ z * v) by nia.
    rewrite of_int_exact by nia.
    rewrite float_mul_int by lia.
    rewrite float_add_int by lia.
    rewrite IH by lia. f_equal. f_equal; [f_equal; f_equal; lia | lia].
Qed.

Lemma rating_values_int (k : string) :
  k ∈ rating_values → ∃ z, py_int k = Some z ∧ 1 ≤ z ≤ 5.
Proof.
  unfold rating_values. rewrite !elem_of_cons, elem_of_nil.
  intros [-> | [-> | [-> | [-> | [-> | []]]]]];
    [exists 1 | exists 2 | exists 3 | exists 4 | exists 5];
    (split; [reflexivity | lia]).
Qed.

Lemma total_count_pos (items : list (string * Z)) :
  items ≠ [] → Forall (λ kv, 0 < kv.2) items →
  0 < foldr (λ kv acc, kv.2 + acc) 0 items.
Proof.
  intros Hne Hall. destruct Hall as [|kv items Hkv Hall]; [done|].
  clear Hne. simpl.
  assert (0 ≤ foldr (λ kv acc, kv.2 + acc) 0 items); [|lia].
  induction Hall as [|kv' items Hkv' _ IH]; simpl; lia.
Qed.

(** The handler on a document that is found and has a rating mapping:
    what remains is the computation on the mapping. *)
Lemma songs_ratings_found (request : Request) (w : World)
    (song_id : string) (oid : objectid.t) (song : Song) (m : gmap string Z) :
  objectid.ObjectId song_id = Some oid →
  first_with_id oid (collection w) = Some song →
  rating song = Some m →
  songs_ratings request song_id w
  = (match mapM py_int (map_to_list m).*1 with
     | None => Raise ValueError
     | Some ints =>
         match py_min ints, py_max ints with
         | Some min_rating, Some max_rating =>
             match rating_loop (map_to_list m) (float.of_int 0) 0 with
             | Some (accu, count) =>
                 if count =? 0 then Raise ZeroDivisionError
                 else Ok (mkResponse 200
                            (JsonStats (_id song) min_rating max_rating
                               (float.div accu (float.of_int count))))
             | None => Raise ValueError
             end
         | _, _ => Raise ValueError
         end
     end,
     log (call_find_one oid) w).
Proof.
  intros Hid Hfind Hm. unfold songs_ratings. rewrite Hid.
  unfold mbind, M_bind, find_one. rewrite Hfind, Hm.
  destruct (mapM py_int (map_to_list m).*1) as [ints|]; [|done]. simpl.
  destruct (py_min ints) as [mn|]; [|done]. simpl.
  destruct (py_max ints) as [mx|]; [|done]. simpl.
  destruct (rating_loop (map_to_list m) (float.of_int 0) 0)
    as [[accu count]|]; [|done].
  simpl. by destruct (count =? 0).
Qed.

(** The handler on a mapping that is not empty and whose keys are
    integers: [min_rating] and [max_rating] are the smallest and the
    largest key, whatever the counts. *)
Lemma songs_ratings_min_max (m : gmap string Z) :
  m ≠ ∅ →
  (∀ k v, m !! k = Some v → is_Some (py_int k)) →
  ∃ ints min_rating max_rating,
    mapM py_int (map_to_list m).*1 = Some ints
    ∧ py_min ints = Some min_rating
    ∧ py_max ints = Some max_rating
    ∧ is_min_key m min_rating
    ∧ is_max_key m max_rating.
Proof.
  intros Hne Hall.
  assert (Hitems : map_to_list m ≠ []) by (by rewrite map_to_list_empty_iff).
  assert (Hkeys : Forall (λ kv, is_Some (py_int kv.1)) (map_to_list m)).
  { apply Forall_forall. intros [k v] Hin%elem_of_map_to_list.
    by apply (Hall k v). }
  destruct (mapM_py_int_spec (map_to_list m).*1)
    as (ints & Hints_eq & Hlen & Hints); [by apply Forall_fmap|].
  assert (Hints_ne : ints ≠ []).
  { intros ->. rewrite length_fmap in Hlen.
    by destruct (map_to_list m). }
  destruct (py_min_spec ints Hints_ne) as (mn & Hmn & Hmn_in & Hmn_le).
  destruct (py_max_spec ints Hints_ne) as (mx & Hmx & Hmx_in & Hmx_le).
  assert (Hkey : ∀ z, z ∈ ints → ∃ k v, m !! k = Some v ∧ py_int k = Some z).
  { intros z (k & Hk & Hz)%Hints.
    apply list_elem_of_fmap in Hk as ([k' v] & -> & Hkv).
    apply elem_of_map_to_list in Hkv. by exists k', v. }
  assert (Hval : ∀ k v z, m !! k = Some v → py_int k = Some z → z ∈ ints).
  { intros k v z Hkv Hz. apply Hints. exists k. split; [|done].
    apply list_elem_of_fmap. exists (k, v).
    split; [done | by apply elem_of_map_to_list]. }
  exists ints, mn, mx. repeat split; eauto.
Qed.

(** The smallest key is the smallest rating value with a non-zero count
    exactly when its own count is not zero. *)
Lemma is_min_rating_key (m : gmap string Z) (z : Z) :
  is_min_key m z →
  is_min_rating m z ↔ ∃ k v, m !! k = Some v ∧ v ≠ 0 ∧ py_int k = Some z.
Proof.
  intros [_ Hle]. split; [by intros [? _]|].
  intros Hex. split; [done|]. intros k v z' Hkv _ Hz'. by apply (Hle k v).
Qed.

Lemma is_max_rating_key (m : gmap string Z) (z : Z) :
  is_max_key m z →
  is_max_rating m z ↔ ∃ k v, m !! k = Some v ∧ v ≠ 0 ∧ py_int k = Some z.
Proof.
  intros [_ Hle]. split; [by intros [? _]|].
  intros Hex. split; [done|]. intros k v z' Hkv _ Hz'. by apply (Hle k v).
Qed.

(** The statistics of a mapping on which the float arithmetic is
    exact. *)
Lemma songs_ratings_mean (request : Request) (w : World)
    (song_id : string) (oid : objectid.t) (song : Song) (m : gmap string Z) :
  objectid.ObjectId song_id = Some oid →
  first_with_id oid (collection w) = Some song →
  rating song = Some m →
  m ≠ ∅ →
  (∀ k v, m !! k = Some v →
          ∃ z, py_int k = Some z ∧ 0 < z < 2 ^ 53 ∧ 0 ≤ v) →
  total_count m ≠ 0 →
  weighted_sum m < 2 ^ 53 →
  ∃ min_rating max_rating,
    songs_ratings request song_id w
    = (Ok (mkResponse 200
             (JsonStats (_id song) min_rating max_rating
                (float.nearest (weighted_mean m)))),
       log (call_find_one oid) w)
    ∧ is_min_key m min_rating
    ∧ is_max_key m max_rating.
Proof.
  intros Hid Hfind Hm Hne Hall Htotal Hbound.
  rewrite (songs_ratings_found _ _ _ _ _ _ Hid Hfind Hm).
  destruct (songs_ratings_min_max m Hne)
    as (ints & mn & mx & -> & -> & -> & Hmn & Hmx).
  { intros k v Hkv. destruct (Hall k v Hkv) as (z & Hz & _). by exists z. }
  assert (Hsmall : Forall small_item (map_to_list m)).
  { apply Forall_forall. intros [k v] Hin%elem_of_map_to_list.
    by apply Hall. }
  rewrite (of_int_exact 0) by lia.
  rewrite rating_loop_exact by (done || by rewrite Z.add_0_l).
  rewrite !Z.add_0_l.
  fold (total_count m). fold (weighted_sum m).
  destruct (total_items_le_weighted _ Hsmall) as [Hlo Hhi].
  pose proof (weighted_items_nonneg _ Hsmall) as Hws.
  fold (total_count m) in Hlo, Hhi. fold (weighted_sum m) in Hhi, Hws.
  rewrite (proj2 (Z.eqb_neq (total_count m) 0)) by done.
  rewrite of_int_exact by lia.
  rewrite float_div_int by lia.
  by exists mn, mx.
Qed.

(** C2, as the handler has it: for a song whose rating mapping is not
    empty, with rating values that are positive integers, counts that are
    not negative and do not add up to zero, and [sum(value * count)]
    below [2 ^ 53], the response is 200; [min_rating] and [max_rating]
    are the smallest and the largest rating value of the mapping, each
    being the smallest (largest) value with a non-zero count exactly when
    the count recorded for it is not zero; and [avg_rating] is the float
    nearest to the mean [sum(value * count) / sum(count)]. *)
Theorem songs_ratings_stats (request : Request) (w : World)
    (song_id : string) (oid : objectid.t) (song : Song) (m : gmap string Z) :
  objectid.ObjectId song_id = Some oid →
  first_with_id oid (collection w) = Some song →
  rating song = Some m →
  m ≠ ∅ →
  (∀ k v, m !! k = Some v →
          ∃ z, py_int k = Some z ∧ 0 < z < 2 ^ 53 ∧ 0 ≤ v) →
  total_count m ≠ 0 →
  weighted_sum m < 2 ^ 53 →
  ∃ min_rating max_rating,
    songs_ratings request song_id w
    = (Ok (mkResponse 200
             (JsonStats (_id song) min_rating max_rating
                (float.nearest (weighted_mean m)))),
       log (call_find_one oid) w)
    ∧ is_min_key m min_rating
    ∧ is_max_key m max_rating
    ∧ (is_min_rating m min_rating
       ↔ ∃ k v, m !! k = Some v ∧ v ≠ 0 ∧ py_int k = Some min_rating)
    ∧ (is_max_rating m max_rating
       ↔ ∃ k v, m !! k = Some v ∧ v ≠ 0 ∧ py_int k = Some max_rating).
Proof.
  intros Hid Hfind Hm Hne Hall Htotal Hbound.
  destruct (songs_ratings_mean request w _ _ _ _ Hid Hfind Hm Hne Hall
              Htotal Hbound) as (mn & mx & Hrun & Hmn & Hmx).
  exists mn, mx. split; [done|]. split; [done|]. split; [done|].
  split; [by apply is_min_rating_key | by apply is_max_rating_key].
Qed.

(** C7, as the handler has it: on a song whose rating mapping is empty
    the computation fails with the [ValueError] that [min] raises on the
    empty list of keys; the division by the total count is not reached. *)
Theorem songs_ratings_empty_mapping (request : Request) (w : World)
    (song_id : string) (oid : objectid.t) (song : Song) :
  objectid.ObjectId song_id = Some oid →
  first_with_id oid (collection w) = Some song →
  rating song = Some ∅ →
  songs_ratings request song_id w
  = (Raise ValueError, log (call_find_one oid) w).
Proof.
  intros Hid Hfind Hm.
  rewrite (songs_ratings_found _ _ _ _ _ _ Hid Hfind Hm).
  by rewrite map_to_list_empty.
Qed.

(** X9: a song that was never rated has no [rating] field at all, and
    asking for its statistics raises [KeyError] at the subscript
    [song['rating']], after the one [find_one] call. *)
Lemma songs_ratings_unrated (request : Request) (w : World)
    (song_id : string) (oid : objectid.t) (song : Song) :
  objectid.ObjectId song_id = Some oid →
  first_with_id oid (collection w) = Some song →
  rating song = None →
  songs_ratings request song_id w
  = (Raise KeyError, log (call_find_one oid) w).
Proof.
  intros Hid Hfind Hm. unfold songs_ratings. rewrite Hid.
  unfold mbind, M_bind, find_one. by rewrite Hfind, Hm.
Qed.

(** X10: where the division by zero does occur: a mapping that is not
    empty, with integer keys, whose counts add up to zero. *)
Lemma songs_ratings_zero_total (request : Request) (w : World)
    (song_id : string) (oid : objectid.t) (song : Song) (m : gmap string Z) :
  objectid.ObjectId song_id = Some oid →
  first_with_id oid (collection w) = Some song →
  rating song = Some m →
  m ≠ ∅ →
  (∀ k v, m !! k = Some v → is_Some (py_int k)) →
  total_count m = 0 →
  songs_ratings request song_id w
  = (Raise ZeroDivisionError, log (call_find_one oid) w).
Proof.
  intros Hid Hfind Hm Hne Hall Htotal.
  rewrite (songs_ratings_found _ _ _ _ _ _ Hid Hfind Hm).
  assert (Hkeys : Forall (λ kv, is_Some (py_int kv.1)) (map_to_list m)).
  { apply Forall_forall. intros [k v] Hin%elem_of_map_to_list. eauto. }
  destruct (mapM_py_int_spec (map_to_list m).*1)
    as (ints & -> & Hlen & _); [by apply Forall_fmap|].
  assert (Hints_ne : ints ≠ []).
  { intros ->. rewrite length_fmap in Hlen.
    apply Hne, map_to_list_empty_iff. by destruct (map_to_list m). }
  destruct (py_min_spec ints Hints_ne) as (mn & -> & _).
  destruct (py_max_spec ints Hints_ne) as (mx & -> & _).
  destruct (rating_loop_count (map_to_list m) (float.of_int 0) 0 Hkeys)
    as (accu & ->).
  fold (total_count m). by rewrite Htotal.
Qed.

(** ** Pagination *)

(** Every parameter is either in order or a non-empty offending text. *)
Lemma param_dichotomy (o : option string) (dflt : Z) :
  (∃ z, valid_param o dflt z)
  ∨ (∃ v, o = Some v ∧ v ≠ EmptyString ∧ invalid_number v).
Proof.
  destruct o as [s|]; [|left; exists dflt; left; split; [by left | done]].
  destruct (decide (s = EmptyString)) as [->|Hne].
  { left. exists dflt. left. split; [by right | done]. }
  destruct (py_int s) as [z|] eqn:Hz.
  - destruct (Z_lt_le_dec z 0) as [Hneg|Hpos].
    + right. exists s. split; [done|]. split; [done|]. right. by exists z.
    + left. exists z. right. by exists s.
  - right. exists s. split; [done|]. split; [done|]. by left.
Qed.

Lemma valid_param_nonneg (o : option string) (dflt z : Z) :
  0 ≤ dflt → valid_param o dflt z → 0 ≤ z.
Proof. intros Hd [[_ ->] | (s & _ & _ & Hz)]; done. Qed.

(** X2, the docstring of [get_songs]: a page beyond the end of the
    collection is answered by 200 with an empty array.  This needs a page
    size of at least one, and [n] and [p * n] within the 64 bits of the
    driver's integers. *)
Theorem get_songs_page_beyond_end (request : Request) (w : World) (p n : Z) :
  valid_param (args request !! "p") 0 p →
  valid_param (args request !! "n") 10 n →
  0 < n → n < 2 ^ 63 → p * n < 2 ^ 63 →
  Z.of_nat (length (collection w)) ≤ p * n →
  get_songs request w
  = (Ok (mkResponse 200 (JsonSongs [])), log (call_find (p * n) n) w).
Proof.
  intros Hp Hn Hpos Hn64 Hpn64 Hend.
  rewrite (get_songs_valid _ _ _ _ Hp Hn) by (apply int64_intro; lia).
  cbn zeta. rewrite (proj2 (Z.eqb_neq n 0)) by lia.
  rewrite drop_ge by lia. by rewrite take_nil.
Qed.

Lemma concat_pages (docs : list Song) (n k : nat) :
  concat ((λ p, take n (drop (p * n) docs)) <$> seq 0 k) = take (k * n) docs.
Proof.
  induction k as [|k IH]; [by rewrite take_0|].
  rewrite seq_S, fmap_app, concat_app, IH. simpl.
  rewrite app_nil_r, take_take_drop. f_equal. lia.
Qed.

Lemma songs_of_get_songs (request : Request) (w : World) (p n : Z) :
  valid_param (args request !! "p") 0 p →
  valid_param (args request !! "n") 10 n →
  0 < n → n < 2 ^ 63 → p * n < 2 ^ 63 →
  songs_of (get_songs request w)
  = take (Z.to_nat n) (drop (Z.to_nat p * Z.to_nat n) (collection w)).
Proof.
  intros Hp Hn Hpos Hn64 Hpn64.
  pose proof (valid_param_nonneg _ _ _ (Z.le_refl 0) Hp).
  rewrite (get_songs_valid _ _ _ _ Hp Hn) by (apply int64_intro; nia).
  unfold songs_of. cbn. rewrite (proj2 (Z.eqb_neq n 0)) by lia.
  by rewrite Z2Nat.inj_mul by lia.
Qed.

(** X3: pages tile the collection: with a page size [n] of at least one, the
    listings of the pages 0, 1, ..., k-1 put end to end are the first
    [k * n] documents, without a gap or a repetition, as long as [k * n]
    fits the 64 bits of the driver's integers. *)
Theorem get_songs_pages_tile (requests : nat → Request) (w : World)
    (n : Z) (k : nat) :
  0 < n →
  Z.of_nat k * n < 2 ^ 63 →
  (∀ i, (i < k)%nat →
        valid_param (args (requests i) !! "p") 0 (Z.of_nat i)
        ∧ valid_param (args (requests i) !! "n") 10 n) →
  concat ((λ i, songs_of (get_songs (requests i) w)) <$> seq 0 k)
  = take (k * Z.to_nat n) (collection w).
Proof.
  intros Hpos Hk64 Hreq. rewrite <- concat_pages. f_equal.
  apply Forall_fmap_ext_1, Forall_forall. intros i [_ Hi]%elem_of_seq.
  destruct (Hreq i) as [Hp Hn]; [lia|].
  rewrite (songs_of_get_songs _ _ _ _ Hp Hn Hpos) by nia.
  by rewrite Nat2Z.id.
Qed.

(** ** Handlers that only read *)

Lemma get_songs_cases (request : Request) (w : World) :
  (∃ r, get_songs request w = (Ok r, w) ∧ status r = 500)
  ∨ (∃ p n,
       valid_param (args request !! "p") 0 p
       ∧ valid_param (args request !! "n") 10 n
       ∧ ((int64 (p * n) && int64 n = true
           ∧ ∃ r, get_songs request w = (Ok r, log (call_find (p * n) n) w)
                  ∧ status r = 200)
          ∨ (int64 (p * n) && int64 n = false
             ∧ get_songs request w
               = (Raise OverflowError, log (call_find (p * n) n) w)))).
Proof.
  destruct (param_dichotomy (args request !! "p") 0)
    as [[p Hp] | (v & Hv & Hne & Hinv)].
  - destruct (param_dichotomy (args request !! "n") 10)
      as [[n Hn] | (v & Hv & Hne & Hinv)].
    + right. exists p, n. split; [done|]. split; [done|].
      destruct (int64 (p * n) && int64 n) eqn:H64.
      * left. split; [done|]. apply andb_true_iff in H64 as [H1 H2].
        rewrite (get_songs_valid _ _ _ _ Hp Hn H1 H2). by eexists.
      * right. split; [done|]. by apply get_songs_overflow.
    + left. rewrite (get_songs_invalid_n _ _ _ _ Hv Hne Hinv Hp). by eexists.
  - left. rewrite (get_songs_invalid_p _ _ _ Hv Hne Hinv). by eexists.
Qed.

Lemma get_avg_difficulty_invalid (request : Request) (w : World)
    (s : string) :
  args request !! "level" = Some s → s ≠ EmptyString → py_int s = None →
  get_avg_difficulty request w
  = (Ok (error_response (errors.InvalidArgumentError (PyStr s) "level")), w).
Proof.
  intros Hs Hne Hparse. unfold get_avg_difficulty.
  destruct (args_get_nonempty _ _ _ Hs Hne) as [-> Ht].
  rewrite Ht. cbn [py_int_of]. by rewrite Hparse.
Qed.

Lemma get_avg_difficulty_cases (request : Request) (w : World) :
  (∃ r, get_avg_difficulty request w = (Ok r, w) ∧ status r = 500)
  ∨ (∃ r pipeline,
       get_avg_difficulty request w
       = (Ok r, log (call_aggregate pipeline) w)
       ∧ status r = 200)
  ∨ (∃ s l,
       args request !! "level" = Some s ∧ py_int s = Some l
       ∧ int64 l = false
       ∧ get_avg_difficulty request w
         = (Raise OverflowError,
            log (call_aggregate [group_level_avg_difficulty; match_id l]) w)).
Proof.
  destruct (args request !! "level") as [s|] eqn:Hs;
    [destruct (decide (s = EmptyString)) as [->|Hne]|].
  - right. left. rewrite get_avg_difficulty_unfiltered by (by right).
    by do 2 eexists.
  - destruct (py_int s) as [l|] eqn:Hparse.
    + rewrite (get_avg_difficulty_level _ _ _ _ Hs Hparse).
      destruct (int64 l) eqn:H64.
      * right. left. by do 2 eexists.
      * right. right. by exists s, l.
    + left. rewrite (get_avg_difficulty_invalid _ _ _ Hs Hne Hparse).
      by eexists.
  - right. left. rewrite get_avg_difficulty_unfiltered by (by left).
    by do 2 eexists.
Qed.

Lemma songs_search_found (request : Request) (w : World) (s : string) :
  args request !! "message" = Some s → s ≠ EmptyString →
  songs_search request w
  = (match text_index w with
     | Some index =>
         Ok (mkResponse 200 (JsonSongs (index s (collection w))))
     | None => Raise OperationFailure
     end,
     log (call_find_text s) w).
Proof.
  intros Hs Hne. unfold songs_search.
  destruct (args_get_nonempty _ _ _ Hs Hne) as [-> Ht]. rewrite Ht.
  unfold mbind, M_bind, find_text. cbn [negb py_format].
  by destruct (text_index w).
Qed.

Lemma songs_search_cases (request : Request) (w : World) :
  (∃ r, songs_search request w = (Ok r, w) ∧ status r = 500)
  ∨ (∃ r s, songs_search request w = (Ok r, log (call_find_text s) w)
            ∧ status r = 200)
  ∨ (∃ s, args request !! "message" = Some s ∧ s ≠ EmptyString
          ∧ text_index w = None
          ∧ songs_search request w
            = (Raise OperationFailure, log (call_find_text s) w)).
Proof.
  destruct (args request !! "message") as [s|] eqn:Hs;
    [destruct (decide (s = EmptyString)) as [->|Hne]|].
  - left. unfold songs_search.
    rewrite (args_get_absent_or_empty request "message") by (by right).
    by eexists.
  - rewrite (songs_search_found _ _ _ Hs Hne).
    destruct (text_index w) as [index|] eqn:Hindex.
    + right. left. by do 2 eexists.
    + right. right. by exists s.
  - left. unfold songs_search.
    rewrite (args_get_absent_or_empty request "message") by (by left).
    by eexists.
Qed.

Lemma songs_ratings_world (request : Request) (song_id : string) (w : World) :
  (songs_ratings request song_id w).2 = w
  ∨ ∃ oid, (songs_ratings request song_id w).2 = log (call_find_one oid) w.
Proof.
  unfold songs_ratings.
  destruct (objectid.ObjectId song_id) as [oid|]; [|by left].
  right. exists oid. unfold mbind, M_bind, find_one.
  destruct (first_with_id oid (collection w)) as [song|]; [|done].
  destruct (rating song) as [m|]; [|done].
  destruct (mapM py_int (map_to_list m).*1) as [ints|]; [|done]. simpl.
  destruct (py_min ints) as [mn|]; [|done]. simpl.
  destruct (py_max ints) as [mx|]; [|done]. simpl.
  destruct (rating_loop (map_to_list m) (float.of_int 0) 0)
    as [[accu count]|]; [|done].
  simpl. by destruct (count =? 0).
Qed.

Lemma read_only_refl (w : World) : read_only w w.
Proof. unfold read_only. eauto 10. Qed.

Lemma read_only_log (c : StoreCall) (w : World) : read_only w (log c w).
Proof. unfold read_only. simpl. eauto 10. Qed.

(** X4: the four [GET] handlers only read: whatever the request and whatever
    the outcome, an error response or an exception included, the
    collection is the one they found, and at most one call went to the
    store. *)
Theorem get_handlers_read_only (request : Request) (song_id : string)
    (w : World) :
  read_only w (get_songs request w).2
  ∧ read_only w (get_avg_difficulty request w).2
  ∧ read_only w (songs_search request w).2
  ∧ read_only w (songs_ratings request song_id w).2.
Proof.
  split; [|split; [|split]].
  - destruct (get_songs_cases request w)
      as [(r & -> & _)
         | (p & n & _ & _ & [(_ & r & -> & _) | (_ & ->)])];
      cbn [snd]; auto using read_only_refl, read_only_log.
  - destruct (get_avg_difficulty_cases request w)
      as [(r & -> & _)
         | [(r & pipeline & -> & _) | (s & l & _ & _ & _ & ->)]];
      cbn [snd]; auto using read_only_refl, read_only_log.
  - destruct (songs_search_cases request w)
      as [(r & -> & _) | [(r & s & -> & _) | (s & _ & _ & _ & ->)]];
      cbn [snd]; auto using read_only_refl, read_only_log.
  - destruct (songs_ratings_world request song_id w) as [-> | [oid ->]];
      cbn [snd]; auto using read_only_refl, read_only_log.
Qed.

(** X5: the exceptions that escape the listing, the average difficulty,
    the search and the rating handlers.  The rating handler always
    answers, with status 200, 404 or 500.  The other three answer with
    status 200 or 500, but for: the listing, when [p] and [n] are in
    order and [n] or [p * n] does not fit 64 bits; the average
    difficulty, when [level] is an integer that does not fit 64 bits, the
    driver raising [OverflowError] in both; and the search, when the
    message is not empty and the collection has no text index, the store
    refusing the query. *)
Theorem handlers_escaping_exceptions (request : Request) (w : World) :
  ((∃ r, response_of (get_songs request w) = Some r
         ∧ (status r = 200 ∨ status r = 500))
   ∨ ((get_songs request w).1 = Raise OverflowError
      ∧ ∃ p n, valid_param (args request !! "p") 0 p
               ∧ valid_param (args request !! "n") 10 n
               ∧ (2 ^ 63 ≤ p * n ∨ 2 ^ 63 ≤ n)))
  ∧ ((∃ r, response_of (get_avg_difficulty request w) = Some r
           ∧ (status r = 200 ∨ status r = 500))
     ∨ ((get_avg_difficulty request w).1 = Raise OverflowError
        ∧ ∃ s l, args request !! "level" = Some s ∧ py_int s = Some l
                 ∧ (l < - 2 ^ 63 ∨ 2 ^ 63 ≤ l)))
  ∧ ((∃ r, response_of (songs_search request w) = Some r
           ∧ (status r = 200 ∨ status r = 500))
     ∨ ((songs_search request w).1 = Raise OperationFailure
        ∧ text_index w = None
        ∧ ∃ s, args request !! "message" = Some s ∧ s ≠ EmptyString))
  ∧ (∃ r, response_of (songs_rating request w) = Some r
          ∧ (status r = 200 ∨ status r = 404 ∨ status r = 500)).
Proof.
  split; [|split; [|split]].
  - destruct (get_songs_cases request w)
      as [(r & -> & Hst)
         | (p & n & Hp & Hn & [(_ & r & -> & Hst) | (H64 & ->)])].
    + left. exists r. eauto.
    + left. exists r. eauto.
    + right. split; [done|]. exists p, n. split; [done|]. split; [done|].
      pose proof (valid_param_nonneg _ _ _ (Z.le_refl 0) Hp).
      assert (0 ≤ n) by (apply (valid_param_nonneg _ 10 _) in Hn; lia).
      unfold int64 in H64. nia.
  - destruct (get_avg_difficulty_cases request w)
      as [(r & -> & Hst)
         | [(r & pipeline & -> & Hst) | (s & l & Hs & Hl & H64 & ->)]].
    + left. exists r. eauto.
    + left. exists r. eauto.
    + right. split; [done|]. exists s, l. split; [done|]. split; [done|].
      unfold int64 in H64. lia.
  - destruct (songs_search_cases request w)
      as [(r & -> & Hst) | [(r & s & -> & Hst) | (s & Hs & Hne & Hix & ->)]].
    + left. exists r. eauto.
    + left. exists r. eauto.
    + right. split; [done|]. split; [done|]. by exists s.
  - destruct (songs_rating_total request w) as (r & w' & Hrun).
    exists r. unfold response_of. rewrite Hrun. split; [done|].
    destruct (songs_rating_cases _ _ _ _ Hrun)
      as [[-> _] | (s & oid & t & docs & n & _ & _ & _ & _ & _ & _ & ->)];
      [by do 2 right|].
    destruct (n =? 0); [right; by left | by left].
Qed.

(** ** Rejected requests on the reading handlers *)

(** X6: a non-empty [level] that fails integer parsing is answered by
    status 500 and the message
    ["<value>" is not a valid argument for parameter "level"], and no
    aggregation is run. *)
Theorem get_avg_difficulty_invalid_level (request : Request) (w : World)
    (s : string) :
  args request !! "level" = Some s → s ≠ EmptyString → py_int s = None →
  get_avg_difficulty request w
  = (Ok (mkResponse 500
           (JsonError
              (dquote +:+ s +:+ dquote
                 +:+ " is not a valid argument for parameter "
                 +:+ dquote +:+ "level" +:+ dquote))),
     w).
Proof.
  intros Hs Hne Hparse.
  by rewrite (get_avg_difficulty_invalid _ _ _ Hs Hne Hparse).
Qed.

(** [bytes.fromhex] refuses a text in which a character is neither a
    hexadecimal digit nor white space. *)
Lemma fromhex_bad_character (s : string) (c : ascii) :
  c ∈ list_ascii_of_string s →
  objectid.is_hex c = false → is_space c = false →
  objectid.fromhex s = None.
Proof.
  intros Hin Hhex Hspace.
  remember (String.length s) as n eqn:Hn. revert s Hn Hin.
  induction n as [n IH] using lt_wf_ind. intros s Hn Hin.
  destruct s as [|a s]; [by apply elem_of_nil in Hin|].
  cbn [list_ascii_of_string] in Hin. cbn [objectid.fromhex].
  cbn [String.length] in Hn.
  destruct (is_space a) eqn:Ea.
  - apply elem_of_cons in Hin as [-> | Hin]; [congruence|].
    apply (IH (String.length s)); [lia | done | done].
  - destruct (objectid.is_hex a) eqn:Eh; [|done].
    apply elem_of_cons in Hin as [-> | Hin]; [congruence|].
    destruct s as [|b s]; [done|].
    destruct (objectid.is_hex b) eqn:Eb; [|done].
    cbn [list_ascii_of_string] in Hin. cbn [String.length] in Hn.
    apply elem_of_cons in Hin as [-> | Hin]; [congruence|].
    rewrite (IH (String.length s)); [done | lia | done | done].
Qed.

Lemma ObjectId_malformed (s : string) :
  malformed_id s → objectid.ObjectId s = None.
Proof.
  unfold objectid.ObjectId.
  intros [Hlen | (c & Hin & Hhex & Hspace)].
  - by rewrite (proj2 (Z.eqb_neq _ _)) by lia.
  - rewrite (fromhex_bad_character s c) by done. by destruct (_ =? _).
Qed.

(** X8: the statistics handler answers status 500 with the message
    ["<song_id>" is not a valid argument for parameter "song_id"], without
    calling the store, when the [song_id] of the path is not 24 characters
    long or has a character that is neither a hexadecimal digit nor white
    space; for a [song_id] that makes an identifier every response it
    gives has status 200. *)
Theorem songs_ratings_malformed_id (request : Request) (w : World)
    (song_id : string) :
  (malformed_id song_id →
   songs_ratings request song_id w
   = (Ok (mkResponse 500
            (JsonError
               (dquote +:+ song_id +:+ dquote
                  +:+ " is not a valid argument for parameter "
                  +:+ dquote +:+ "song_id" +:+ dquote))),
      w))
  ∧ (is_Some (objectid.ObjectId song_id) →
     ∀ r, response_of (songs_ratings request song_id w) = Some r →
          status r = 200).
Proof.
  split.
  - intros Hbad. unfold songs_ratings.
    by rewrite (ObjectId_malformed _ Hbad).
  - intros [oid Hid] r.
    unfold songs_ratings, response_of. rewrite Hid.
    unfold mbind, M_bind, find_one.
    destruct (first_with_id oid (collection w)) as [song|]; [|done].
    destruct (rating song) as [m|]; [|done].
    destruct (mapM py_int (map_to_list m).*1) as [ints|]; [|done]. simpl.
    destruct (py_min ints) as [mn|]; [|done]. simpl.
    destruct (py_max ints) as [mx|]; [|done]. simpl.
    destruct (rating_loop (map_to_list m) (float.of_int 0) 0)
      as [[accu count]|]; [|done].
    simpl. destruct (count =? 0); [done|]. by intros [= <-].
Qed.

(** ** Statistics of mappings built by rating requests *)

(** A weighted sum lies between the smallest and the largest value times
    the total weight. *)
Lemma weighted_sum_bounds (items : list (string * Z)) (lo hi : Z) :
  Forall (λ kv, lo ≤ default 0 (py_int kv.1) ≤ hi ∧ 0 < kv.2) items →
  let total := foldr (λ kv acc, kv.2 + acc) 0 items in
  let weighted :=
    foldr (λ kv acc, default 0 (py_int kv.1) * kv.2 + acc) 0 items in
  lo * total ≤ weighted ≤ hi * total.
Proof.
  induction 1 as [|[k v] items [Hk Hv] _ IH]; simpl in *; [lia|]. nia.
Qed.

(** X11: for a song that is found and whose rating mapping is as the
    rating requests build it, with [sum(value * count)] below [2 ^ 53],
    the statistics are answered with status 200 and
    [1 <= min_rating <= avg_rating <= max_rating <= 5], [avg_rating]
    being a finite float. *)
Theorem songs_ratings_bounds (request : Request) (w : World)
    (song_id : string) (oid : objectid.t) (song : Song) (m : gmap string Z) :
  objectid.ObjectId song_id = Some oid →
  first_with_id oid (collection w) = Some song →
  rating song = Some m →
  rating_wf song →
  weighted_sum m < 2 ^ 53 →
  ∃ min_rating max_rating avg_rating,
    songs_ratings request song_id w
    = (Ok (mkResponse 200
             (JsonStats (_id song) min_rating max_rating
                (float.Finite false avg_rating))),
       log (call_find_one oid) w)
    ∧ 1 ≤ min_rating ∧ max_rating ≤ 5
    ∧ (inject_Z min_rating <= avg_rating)%Q
    ∧ (avg_rating <= inject_Z max_rating)%Q.
Proof.
  intros Hid Hfind Hm Hwf Hbound. destruct (Hwf m Hm) as [Hne Hall].
  assert (Hval : ∀ k v, m !! k = Some v →
                        ∃ z, py_int k = Some z ∧ 1 ≤ z ≤ 5 ∧ 0 < v).
  { intros k v Hin. destruct (Hall k v Hin) as [Hk Hv].
    destruct (rating_values_int k Hk) as (z & Hz & Hrange). eauto. }
  assert (Hitems : map_to_list m ≠ []) by (by rewrite map_to_list_empty_iff).
  assert (Hpos : Forall (λ kv : string * Z, 0 < kv.2) (map_to_list m)).
  { apply Forall_forall. intros [k v] Hin%elem_of_map_to_list.
    by destruct (Hval k v Hin) as (z & _ & _ & Hv). }
  pose proof (total_count_pos _ Hitems Hpos) as Htotal.
  fold (total_count m) in Htotal.
  destruct (songs_ratings_mean request w song_id oid song m)
    as (mn & mx & -> & [(kn & vn & Hkn & Hzn) Hmn] & [(kx & vx & Hkx & Hzx) Hmx]);
    [done.. | | lia | done |].
  { intros k v Hkv. destruct (Hval k v Hkv) as (z & Hz & Hrange & Hv).
    exists z. split; [done|]. split; [|lia].
    assert (2 ^ 3 < 2 ^ 53) by (apply Z.pow_lt_mono_r; lia). lia. }
  assert (Hbounds : Forall (λ kv, mn ≤ default 0 (py_int kv.1) ≤ mx ∧ 0 < kv.2)
                      (map_to_list m)).
  { apply Forall_forall. intros [k v] Hin%elem_of_map_to_list.
    destruct (Hval k v Hin) as (z & Hz & _ & Hv). simpl. rewrite Hz. simpl.
    split; [|done]. split; [by apply (Hmn k v) | by apply (Hmx k v)]. }
  apply weighted_sum_bounds in Hbounds. cbn zeta in Hbounds.
  fold (total_count m) in Hbounds. fold (weighted_sum m) in Hbounds.
  assert (1 ≤ mn ≤ 5) as Hmn_range.
  { destruct (Hval kn vn Hkn) as (z & Hz & Hrange & _). congruence. }
  assert (1 ≤ mx ≤ 5) as Hmx_range.
  { destruct (Hval kx vx Hkx) as (z & Hz & Hrange & _). congruence. }
  assert (HT : (0 < inject_Z (total_count m))%Q).
  { change 0%Q with (inject_Z 0). by rewrite <- Zlt_Qlt. }
  assert (Hlo : (inject_Z mn <= weighted_mean m)%Q).
  { apply Qle_shift_div_l; [done|].
    rewrite <- inject_Z_mult, <- Zle_Qle. lia. }
  assert (Hhi : (weighted_mean m <= inject_Z mx)%Q).
  { apply Qle_shift_div_r; [done|].
    rewrite <- inject_Z_mult, <- Zle_Qle. lia. }
  rewrite nearest_nonneg.
  2:{ apply Qle_trans with (inject_Z mn); [|done].
      change 0%Q with (inject_Z 0). rewrite <- Zle_Qle. lia. }
  destruct (rounded_between (weighted_mean m) mn mx)
    as (avg & -> & Havg_lo & Havg_hi); [lia | | done | done |].
  { assert (2 ^ 3 < 2 ^ 53) by (apply Z.pow_lt_mono_r; lia). lia. }
  exists mn, mx, avg. split; [done|]. repeat split; (lia || done).
Qed.

(** ** Rating requests, one after the other *)

Lemma first_with_id_match (oid : objectid.t) (pre post : list Song) (d : Song) :
  (∀ x, x ∈ pre → _id x ≠ oid) → _id d = oid →
  first_with_id oid (pre ++ d :: post) = Some d.
Proof.
  intros Hpre Hd. unfold first_with_id. induction pre as [|x pre IH]; simpl.
  - by rewrite bool_decide_eq_true_2.
  - rewrite bool_decide_eq_false_2 by (apply Hpre; left).
    apply IH. intros y Hy. apply Hpre. by right.
Qed.

(** A rating request that passes the validations and finds its document. *)
Lemma songs_rating_match (request : Request) (w : World) (s t : string)
    (oid : objectid.t) (pre post : list Song) (d : Song) :
  form request !! "song_id" = Some s → objectid.ObjectId s = Some oid →
  form request !! "rating" = Some t → t ∈ rating_values →
  collection w = pre ++ d :: post →
  (∀ x, x ∈ pre → _id x ≠ oid) → _id d = oid →
  songs_rating request w
  = (Ok (mkResponse 200 JsonStatusOK),
     set_collection (pre ++ inc_rating t d :: post)
       (log (call_update_one oid t) w)).
Proof.
  intros Hs Hid Hr Hin Hdocs Hpre Hd.
  rewrite (songs_rating_update _ _ _ _ _ Hs Hid Hr Hin).
  by rewrite Hdocs, (update_first_match _ _ _ _ _ Hpre Hd).
Qed.

(** X12: the first rating of a song and its statistics: after a rating
    request with value [t] on a song that had no rating yet, the
    statistics of that song are answered with status 200,
    [min_rating = max_rating = t] and [avg_rating] equal to [t]. *)
Theorem first_rating_stats (request get : Request) (w : World)
    (s t : string) (oid : objectid.t) (pre post : list Song) (d : Song) :
  form request !! "song_id" = Some s → objectid.ObjectId s = Some oid →
  form request !! "rating" = Some t → t ∈ rating_values →
  collection w = pre ++ d :: post →
  (∀ x, x ∈ pre → _id x ≠ oid) → _id d = oid →
  rating d = None →
  ∃ z,
    py_int t = Some z
    ∧ songs_ratings get s (songs_rating request w).2
      = (Ok (mkResponse 200
               (JsonStats oid z z (float.Finite false (inject_Z z)))),
         log (call_find_one oid) (songs_rating request w).2).
Proof.
  intros Hs Hid Hr Hin Hdocs Hpre Hd Hnone.
  destruct (rating_values_int t Hin) as (z & Hz & Hrange).
  assert (2 ^ 3 < 2 ^ 53) as Hpow by (apply Z.pow_lt_mono_r; lia).
  rewrite (songs_rating_match _ _ _ _ _ _ _ _ Hs Hid Hr Hin Hdocs Hpre Hd).
  cbn [snd].
  assert (Hm : rating (inc_rating t d) = Some {[t := 1]}).
  { unfold inc_rating. rewrite Hnone. simpl.
    by rewrite lookup_empty, insert_empty. }
  rewrite (songs_ratings_found get _ s oid (inc_rating t d) {[t := 1]});
    [|done|by apply first_with_id_match|done].
  rewrite map_to_list_singleton. cbn [fmap list_fmap fst mapM].
  rewrite Hz. cbn [mbind option_bind mret option_ret py_min py_max foldl].
  cbn [rating_loop]. rewrite (py_float_int t z Hz) by lia.
  rewrite !of_int_exact by lia.
  rewrite float_mul_int, float_add_int by lia.
  change (0 + 1 =? 0) with false. cbn match.
  rewrite float_div_int by lia.
  rewrite (nearest_int _ z); [|unfold Qeq; simpl; lia|lia].
  exists z. split; [done|]. unfold inc_rating. cbn [_id]. by rewrite Hd.
Qed.

(** The whole result of a rating request, read off its target. *)
Lemma songs_rating_effect (request : Request) :
  match rating_target request with
  | Some (oid, t) =>
      t ∈ rating_values
      ∧ ∀ w, songs_rating request w
             = let '(docs, n) :=
                 update_first oid (inc_rating t) (collection w) in
               (Ok (if n =? 0
                    then error_response
                           (errors.ObjectNotFoundError (PyOid oid))
                    else mkResponse 200 JsonStatusOK),
                set_collection docs (log (call_update_one oid t) w))
  | None => ∃ r, ∀ w, songs_rating request w = (Ok r, w)
  end.
Proof.
  unfold rating_target.
  destruct (form request !! "song_id") as [s|] eqn:Hs.
  - destruct (decide (s = EmptyString)) as [->|Hne].
    { assert (objectid.ObjectId EmptyString = None) as -> by reflexivity.
      destruct (form request !! "rating");
        eexists; intros w; apply songs_rating_missing_song_id; by right. }
    destruct (form request !! "rating") as [t|] eqn:Hr.
    + destruct (objectid.ObjectId s) as [oid|] eqn:Hid.
      * case_bool_decide as Hin.
        -- split; [done|]. intros w.
           apply (songs_rating_update _ _ _ _ _ Hs Hid Hr Hin).
        -- eexists. intros w.
           apply (songs_rating_invalid_rating _ _ _ _ Hs Hid). eauto.
      * eexists. intros w. by apply songs_rating_malformed_song_id.
    + destruct (objectid.ObjectId s) as [oid|] eqn:Hid.
      * eexists. intros w.
        apply (songs_rating_invalid_rating _ _ _ _ Hs Hid). by left.
      * eexists. intros w. by apply songs_rating_malformed_song_id.
  - eexists. intros w. apply songs_rating_missing_song_id. by left.
Qed.

Lemma rated_from_refl (d : Song) : rated_from d d.
Proof. by repeat split. Qed.

Lemma rated_from_trans (d1 d2 d3 : Song) :
  rated_from d1 d2 → rated_from d2 d3 → rated_from d1 d3.
Proof.
  intros (? & ? & ? & ? & ? & H12) (? & ? & ? & ? & ? & H23).
  repeat split; try congruence. intros k. specialize (H12 k).
  specialize (H23 k). lia.
Qed.

Lemma rated_from_inc (t : string) (d : Song) : rated_from d (inc_rating t d).
Proof.
  repeat split. intros k. destruct (decide (k = t)) as [->|Hne].
  - rewrite rating_count_inc. lia.
  - by rewrite rating_count_inc_ne.
Qed.

Lemma update_first_Forall2 (R : Song → Song → Prop) (oid : objectid.t)
    (f : Song → Song) (docs : list Song) :
  (∀ d, R d d) → (∀ d, R d (f d)) →
  Forall2 R docs (update_first oid f docs).1.
Proof.
  intros Hrefl Hf. induction docs as [|d r IH]; simpl; [constructor|].
  case_bool_decide.
  - constructor; [apply Hf|]. by apply Forall_Forall2_diag, Forall_true.
  - destruct (update_first oid f r) as [r' n]. by constructor.
Qed.

Lemma Forall2_rated_from_trans (l1 l2 l3 : list Song) :
  Forall2 rated_from l1 l2 → Forall2 rated_from l2 l3 →
  Forall2 rated_from l1 l3.
Proof.
  intros H12. revert l3. induction H12 as [|d1 d2 l1 l2 Hd _ IH]; intros l3 H23.
  - by inversion H23.
  - inversion H23 as [|? d3 ? l3' Hd' H23']; subst.
    constructor; [by eapply rated_from_trans | by apply IH].
Qed.

Lemma songs_rating_rated_from (request : Request) (w : World) :
  Forall2 rated_from (collection w) (collection (songs_rating request w).2).
Proof.
  pose proof (songs_rating_effect request) as H.
  destruct (rating_target request) as [[oid t]|].
  - destruct H as [_ H]. rewrite H.
    pose proof (update_first_Forall2 rated_from oid (inc_rating t)
                  (collection w) rated_from_refl (rated_from_inc t)) as HR.
    by destruct (update_first oid (inc_rating t) (collection w)).
  - destruct H as [r H]. rewrite H. simpl.
    apply Forall_Forall2_diag, Forall_true, rated_from_refl.
Qed.

Lemma run_ratings_snoc (requests : list Request) (request : Request)
    (w : World) :
  run_ratings (requests ++ [request]) w
  = (songs_rating request (run_ratings requests w)).2.
Proof. unfold run_ratings. by rewrite foldl_app. Qed.

(** X13: rating requests never add, remove, reorder or rewrite
    documents: after any series of them the collection has the same
    documents at the same places, with the same identifier, artist, title,
    level and difficulty, and no rating count has gone down. *)
Theorem run_ratings_keep_documents (requests : list Request) (w : World) :
  Forall2 rated_from (collection w) (collection (run_ratings requests w)).
Proof.
  induction requests as [|request requests IH] using rev_ind.
  - apply Forall_Forall2_diag, Forall_true, rated_from_refl.
  - rewrite run_ratings_snoc.
    eapply Forall2_rated_from_trans; [exact IH|].
    apply songs_rating_rated_from.
Qed.

Lemma rating_wf_inc (t : string) (d : Song) :
  t ∈ rating_values → rating_wf d → rating_wf (inc_rating t d).
Proof.
  intros Hin Hwf m [= <-]. split; [apply insert_non_empty|].
  intros k v [[<- <-] | [Hne Hkv]]%lookup_insert_Some.
  - split; [done|].
    destruct (rating d) as [m|] eqn:Hm; simpl; [|by rewrite lookup_empty].
    destruct (m !! t) as [c|] eqn:Hc; simpl; [|lia].
    destruct (Hwf m Hm) as [_ Hall]. destruct (Hall t c Hc). lia.
  - destruct (rating d) as [m|] eqn:Hm; simpl in Hkv.
    + destruct (Hwf m Hm) as [_ Hall]. by apply Hall.
    + by rewrite lookup_empty in Hkv.
Qed.

Lemma update_first_Forall (P : Song → Prop) (oid : objectid.t)
    (f : Song → Song) (docs : list Song) :
  (∀ d, P d → P (f d)) → Forall P docs → Forall P (update_first oid f docs).1.
Proof.
  intros Hf. induction 1 as [|d r Hd Hr IH]; simpl; [constructor|].
  case_bool_decide.
  - constructor; [by apply Hf | done].
  - destruct (update_first oid f r) as [r' n]. by constructor.
Qed.

Lemma songs_rating_wf (request : Request) (w : World) :
  Forall rating_wf (collection w) →
  Forall rating_wf (collection (songs_rating request w).2).
Proof.
  intros Hwf. pose proof (songs_rating_effect request) as H.
  destruct (rating_target request) as [[oid t]|].
  - destruct H as [Hin H]. rewrite H.
    pose proof (update_first_Forall rating_wf oid (inc_rating t)
                  (collection w) (λ d, rating_wf_inc t d Hin) Hwf) as HP.
    by destruct (update_first oid (inc_rating t) (collection w)).
  - destruct H as [r H]. by rewrite H.
Qed.

(** X14: rating requests keep every rating mapping in order: if, before
    a series of rating requests, every document has either no mapping or
    a non-empty one with keys among "1".."5" and positive counts, then so
    has every document after it.  A collection of songs that were never
    rated is such a start. *)
Theorem run_ratings_wf (requests : list Request) (w : World) :
  Forall rating_wf (collection w) →
  Forall rating_wf (collection (run_ratings requests w)).
Proof.
  intros Hwf. induction requests as [|request requests IH] using rev_ind.
  - exact Hwf.
  - rewrite run_ratings_snoc. by apply songs_rating_wf.
Qed.

Lemma iter_inc_rating_id (t : string) (d : Song) (n : nat) :
  _id (Nat.iter n (inc_rating t) d) = _id d.
Proof. induction n as [|n IH]; [done|]. simpl. exact IH. Qed.

(** X15: the same rating sent [n] times in a row to a song of the
    collection raises the count of that value on that song by exactly
    [n]; the other counts of the song and the other documents are as
    before. *)
Theorem repeated_rating_counts (request : Request) (w : World)
    (s t : string) (oid : objectid.t) (pre post : list Song) (d : Song)
    (n : nat) :
  form request !! "song_id" = Some s → objectid.ObjectId s = Some oid →
  form request !! "rating" = Some t → t ∈ rating_values →
  collection w = pre ++ d :: post →
  (∀ x, x ∈ pre → _id x ≠ oid) → _id d = oid →
  ∃ d',
    collection (run_ratings (replicate n request) w) = pre ++ d' :: post
    ∧ rating_count t d' = rating_count t d + Z.of_nat n
    ∧ (∀ k, k ≠ t → rating_count k d' = rating_count k d).
Proof.
  intros Hs Hid Hr Hin Hdocs Hpre Hd.
  exists (Nat.iter n (inc_rating t) d). split; [|split].
  - induction n as [|n IH]; [done|].
    rewrite replicate_S_end, run_ratings_snoc.
    rewrite (songs_rating_match _ _ _ _ _ _ _ _ Hs Hid Hr Hin IH Hpre);
      [done|].
    by rewrite iter_inc_rating_id.
  - induction n as [|n IH]; [simpl; lia|].
    rewrite Nat.iter_succ, rating_count_inc, IH. lia.
  - intros k Hk. induction n as [|n IH]; [done|].
    by rewrite Nat.iter_succ, rating_count_inc_ne.
Qed.

Lemma inc_rating_comm (t1 t2 : string) (d : Song) :
  inc_rating t1 (inc_rating t2 d) = inc_rating t2 (inc_rating t1 d).
Proof.
  destruct (decide (t1 = t2)) as [->|Hne]; [done|].
  unfold inc_rating. simpl. f_equal. f_equal.
  rewrite !lookup_insert_ne by done. by apply insert_insert_ne.
Qed.

Lemma update_first_comm (o1 o2 : objectid.t) (t1 t2 : string)
    (docs : list Song) :
  (update_first o1 (inc_rating t1)
     (update_first o2 (inc_rating t2) docs).1).1
  = (update_first o2 (inc_rating t2)
       (update_first o1 (inc_rating t1) docs).1).1.
Proof.
  induction docs as [|d r IH]; [done|]. simpl.
  destruct (decide (_id d = o1)) as [H1|H1];
    destruct (decide (_id d = o2)) as [H2|H2].
  - rewrite !bool_decide_eq_true_2 by done. simpl.
    rewrite !bool_decide_eq_true_2 by done. simpl.
    by rewrite inc_rating_comm.
  - rewrite (bool_decide_eq_true_2 _ H1), (bool_decide_eq_false_2 _ H2).
    destruct (update_first o2 (inc_rating t2) r) as [r2 n2] eqn:E2. simpl.
    rewrite (bool_decide_eq_true_2 _ H1), (bool_decide_eq_false_2 _ H2).
    simpl. by rewrite E2.
  - rewrite (bool_decide_eq_false_2 _ H1), (bool_decide_eq_true_2 _ H2).
    destruct (update_first o1 (inc_rating t1) r) as [r1 n1] eqn:E1. simpl.
    rewrite (bool_decide_eq_false_2 _ H1), (bool_decide_eq_true_2 _ H2).
    simpl. by rewrite E1.
  - rewrite (bool_decide_eq_false_2 _ H1), (bool_decide_eq_false_2 _ H2).
    destruct (update_first o1 (inc_rating t1) r) as [r1 n1] eqn:E1.
    destruct (update_first o2 (inc_rating t2) r) as [r2 n2] eqn:E2. simpl.
    rewrite (bool_decide_eq_false_2 _ H1), (bool_decide_eq_false_2 _ H2).
    simpl in IH.
    destruct (update_first o1 (inc_rating t1) r2) as [r12 n12].
    destruct (update_first o2 (inc_rating t2) r1) as [r21 n21].
    simpl in *. by rewrite IH.
Qed.

(** The number of documents matched by an update only depends on the
    identifiers in the collection. *)
Lemma update_first_count (oid : objectid.t) (f : Song → Song)
    (docs : list Song) :
  (update_first oid f docs).2
  = if bool_decide (oid ∈ _id <$> docs) then 1 else 0.
Proof.
  induction docs as [|d r IH]; [done|]. simpl.
  destruct (decide (_id d = oid)) as [Hd|Hd].
  - rewrite (bool_decide_eq_true_2 _ Hd). simpl.
    rewrite bool_decide_eq_true_2; [done|]. rewrite <- Hd. left.
  - rewrite (bool_decide_eq_false_2 _ Hd).
    destruct (update_first oid f r) as [r' n]. simpl in *. rewrite IH.
    destruct (decide (oid ∈ _id <$> r)) as [Hin|Hnot].
    + rewrite !bool_decide_eq_true_2; [done | by right | done].
    + rewrite !bool_decide_eq_false_2; [done | | done].
      intros [?|?]%elem_of_cons; [congruence | by apply Hnot].
Qed.

Lemma rated_from_ids (docs docs' : list Song) :
  Forall2 rated_from docs docs' → _id <$> docs' = _id <$> docs.
Proof.
  induction 1 as [|d d' docs docs' (Hid & _) _ IH]; [done|].
  rewrite !fmap_cons. by rewrite Hid, IH.
Qed.

(** X16: rating requests commute.  Two rating requests served in either
    order leave the same collection, and the answer to a rating request
    is the same whether or not another rating request was served just
    before it. *)
Theorem ratings_commute (r1 r2 : Request) (w : World) :
  collection (run_ratings [r1; r2] w) = collection (run_ratings [r2; r1] w)
  ∧ response_of (songs_rating r1 (songs_rating r2 w).2)
    = response_of (songs_rating r1 w).
Proof.
  pose proof (songs_rating_rated_from r2 w) as Hids%rated_from_ids.
  pose proof (songs_rating_effect r1) as H1.
  pose proof (songs_rating_effect r2) as H2.
  unfold run_ratings. cbn [foldl].
  destruct (rating_target r1) as [[o1 t1]|], (rating_target r2) as [[o2 t2]|].
  - destruct H1 as [_ H1], H2 as [_ H2]. split.
    + rewrite (H2 (songs_rating r1 w).2), (H1 (songs_rating r2 w).2).
      rewrite (H1 w), (H2 w).
      pose proof (update_first_comm o1 o2 t1 t2 (collection w)) as Hc.
      destruct (update_first o1 (inc_rating t1) (collection w)) as [d1 n1].
      destruct (update_first o2 (inc_rating t2) (collection w)) as [d2 n2].
      simpl in *.
      destruct (update_first o1 (inc_rating t1) d2) as [d12 n12].
      destruct (update_first o2 (inc_rating t2) d1) as [d21 n21].
      simpl in *. congruence.
    + rewrite (H1 (songs_rating r2 w).2), (H1 w). unfold response_of.
      pose proof (update_first_count o1 (inc_rating t1)
                    (collection (songs_rating r2 w).2)) as Hn.
      pose proof (update_first_count o1 (inc_rating t1) (collection w)) as Hn'.
      rewrite Hids in Hn.
      destruct (update_first o1 (inc_rating t1)
                  (collection (songs_rating r2 w).2)) as [da na].
      destruct (update_first o1 (inc_rating t1) (collection w)) as [db nb].
      simpl in *. by rewrite Hn, Hn'.
  - destruct H1 as [_ H1], H2 as [r H2]. split.
    + by rewrite (H2 (songs_rating r1 w).2), (H2 w).
    + by rewrite (H2 w).
  - destruct H1 as [r H1], H2 as [_ H2]. split.
    + by rewrite (H1 (songs_rating r2 w).2), (H1 w).
    + by rewrite (H1 (songs_rating r2 w).2), (H1 w).
  - destruct H1 as [r H1], H2 as [r' H2]. split.
    + by rewrite (H1 (songs_rating r2 w).2), (H2 (songs_rating r1 w).2),
        (H1 w), (H2 w).
    + by rewrite (H1 (songs_rating r2 w).2), (H1 w).
Qed.

End interpreter.

(** ** The theorems on the fixtures *)

#[global] Existing Instance fixture.unicode.

(** [int] on texts at the edge of what it reads: the separators 0x1C
    to 0x1F are no white space for a text in ASCII; a digit or a white
    space outside ASCII is read as its ASCII counterpart. *)
Lemma py_int_examples :
  py_int (String (ascii_of_N 28) "5") = None
  ∧ py_int (String (ascii_of_N 217) (String (ascii_of_N 161) EmptyString))
    = Some 1
  ∧ py_int (String (ascii_of_N 194) (String (ascii_of_N 160) "5")) = Some 5
  ∧ py_int " +1_000 " = Some 1000
  ∧ py_int "1__0" = None
  ∧ py_int "- 7" = None
  ∧ py_int "-0" = Some 0.
Proof. repeat split; reflexivity. Qed.

(** An identifier of 24 characters with white space between the bytes
    is accepted: the rating request goes to the store and finds nothing,
    the statistics request raises. *)
Lemma spaced_song_id_examples :
  let w := fixture.world [fixture.unrated; fixture.rated_once] in
  let oid := objectid.mk "5aa0f1a5e2c8b72d" in
  objectid.ObjectId "5a a0 f1 a5 e2 c8 b7 2d " = Some oid
  ∧ songs_rating
      (fixture.request "/songs/rating" []
         [("song_id", "5a a0 f1 a5 e2 c8 b7 2d "); ("rating", "4")]) w
    = (Ok (error_response (errors.ObjectNotFoundError (PyOid oid))),
       log (call_update_one oid "4") w)
  ∧ songs_ratings (fixture.request "/songs/avg/rating/x" [] [])
      "5a a0 f1 a5 e2 c8 b7 2d " w
    = (Raise TypeError, log (call_find_one oid) w).
Proof. repeat split; reflexivity. Qed.

(** A page number or a page size beyond 64 bits passes the validation
    and makes the driver raise. *)
Lemma get_songs_overflow_examples :
  let w := fixture.world [fixture.unrated; fixture.rated_once] in
  (get_songs
     (fixture.request "/songs" [("p", "18446744073709551616"); ("n", "1")] [])
     w).1
  = Raise OverflowError
  ∧ (get_songs
       (fixture.request "/songs" [("n", "9223372036854775808")] []) w).1
    = Raise OverflowError.
Proof. split; reflexivity. Qed.

(** A search on a collection that has no text index is refused by the
    store. *)
Lemma songs_search_no_index_example :
  let w :=
    mkWorld [fixture.unrated] None fixture.exact_avg id
      (λ rows, Permutation_refl rows) [] in
  (songs_search
     (fixture.request "/songs/search" [("message", "Yousicians")] []) w).1
  = Raise OperationFailure.
Proof. reflexivity. Qed.

Lemma songs_search_message_required_witness :
  let request := fixture.request "/songs/search" [("message", EmptyString)] [] in
  let w := fixture.world [fixture.unrated; fixture.rated_once] in
  songs_search request w
  = (Ok (error_response
           (errors.MissingRequireArgumentError "message" "/songs/search")),
     w).
Proof.
  intros request w.
  destruct (songs_search_message_required request w) as [H _].
  - right. reflexivity.
  - reflexivity.
  - exact H.
Defined.

Lemma songs_rating_empty_song_id_counterexample :
  let request :=
    fixture.request "/songs/rating" []
      [("song_id", EmptyString); ("rating", "4")] in
  let w := fixture.world [fixture.unrated] in
  form request !! "song_id" = Some EmptyString
  ∧ objectid.ObjectId EmptyString = None
  ∧ songs_rating request w
    ≠ (Ok (error_response
             (errors.InvalidArgumentError (PyStr EmptyString) "song_id")),
       w)
  ∧ songs_rating request w
    = (Ok (error_response
             (errors.MissingRequireArgumentError "song_id" "/songs/rating")),
       w).
Proof.
  intros request w.
  assert (Hs : form request !! "song_id" = Some EmptyString) by reflexivity.
  assert (H : songs_rating request w
              = (Ok (error_response
                       (errors.MissingRequireArgumentError "song_id"
                          "/songs/rating")), w)).
  { apply songs_rating_missing_song_id. by right. }
  split; [done|]. split; [done|]. split; [|done].
  rewrite H. intros [= Hmsg].
Qed.

Lemma songs_rating_characterization_witness :
  let w := fixture.world [fixture.unrated; fixture.rated_once] in
  let post form := songs_rating (fixture.request "/songs/rating" [] form) w in
  (post []).1
  = Ok (error_response
          (errors.MissingRequireArgumentError "song_id" "/songs/rating"))
  ∧ (post [("song_id", "hdhhd")]).1
    = Ok (error_response
            (errors.InvalidArgumentError (PyStr "hdhhd") "song_id"))
  ∧ (post [("song_id", "5aa0f1a5e2c8b72d4c3e9a02")]).1
    = Ok (error_response (errors.InvalidArgumentError PyNone "rating"))
  ∧ (post [("song_id", "5aa0f1a5e2c8b72d4c3e9a02"); ("rating", "10")]).1
    = Ok (error_response (errors.InvalidArgumentError (PyStr "10") "rating"))
  ∧ (post [("song_id", "5aa0f1a5e2c8b72d4c3e9a03"); ("rating", "4")]).1
    = Ok (error_response
            (errors.ObjectNotFoundError (PyOid fixture.oid3)))
  ∧ post [("song_id", "5aa0f1a5e2c8b72d4c3e9a02"); ("rating", "4")]
    = (Ok (mkResponse 200 JsonStatusOK),
       set_collection [fixture.unrated; inc_rating "4" fixture.rated_once]
         (log (call_update_one fixture.oid2 "4") w))
  ∧ rating_count "4" (inc_rating "4" fixture.rated_once) = 2.
Proof.
  intros w post. unfold post.
  split; [|split; [|split; [|split; [|split; [|split]]]]].
  - destruct (songs_rating_characterization
                (fixture.request "/songs/rating" [] []) w) as (H & _).
    rewrite H; [reflexivity | by left].
  - destruct (songs_rating_characterization
                (fixture.request "/songs/rating" [] [("song_id", "hdhhd")]) w)
      as (_ & H & _).
    rewrite (H "hdhhd"); [reflexivity | reflexivity | discriminate | reflexivity].
  - destruct (songs_rating_characterization
                (fixture.request "/songs/rating" []
                   [("song_id", "5aa0f1a5e2c8b72d4c3e9a02")])
                w) as (_ & _ & H & _).
    rewrite (H "5aa0f1a5e2c8b72d4c3e9a02" fixture.oid2); reflexivity.
  - destruct (songs_rating_characterization
                (fixture.request "/songs/rating" []
                   [("song_id", "5aa0f1a5e2c8b72d4c3e9a02"); ("rating", "10")])
                w) as (_ & _ & _ & H & _).
    rewrite (H "5aa0f1a5e2c8b72d4c3e9a02" fixture.oid2 "10");
      [reflexivity | reflexivity | reflexivity | reflexivity |].
    by apply (bool_decide_eq_false_1 ("10" ∈ rating_values)).
  - destruct (songs_rating_characterization
                (fixture.request "/songs/rating" []
                   [("song_id", "5aa0f1a5e2c8b72d4c3e9a03"); ("rating", "4")])
                w) as (_ & _ & _ & _ & H & _).
    rewrite (H "5aa0f1a5e2c8b72d4c3e9a03" fixture.oid3 "4");
      [reflexivity | reflexivity | reflexivity | reflexivity | |].
    + by apply (bool_decide_eq_true_1 ("4" ∈ rating_values)).
    + apply Forall_forall. repeat constructor; discriminate.
  - destruct (songs_rating_characterization
                (fixture.request "/songs/rating" []
                   [("song_id", "5aa0f1a5e2c8b72d4c3e9a02"); ("rating", "4")])
                w) as (_ & _ & _ & _ & _ & H).
    destruct (H "5aa0f1a5e2c8b72d4c3e9a02" fixture.oid2 "4"
                [fixture.unrated] fixture.rated_once [])
      as (Hrun & _); [reflexivity | reflexivity | reflexivity | | reflexivity | | reflexivity |].
    + by apply (bool_decide_eq_true_1 ("4" ∈ rating_values)).
    + apply Forall_forall. repeat constructor; discriminate.
    + rewrite Hrun. reflexivity.
  - destruct (songs_rating_characterization
                (fixture.request "/songs/rating" []
                   [("song_id", "5aa0f1a5e2c8b72d4c3e9a02"); ("rating", "4")])
                w) as (_ & _ & _ & _ & _ & H).
    destruct (H "5aa0f1a5e2c8b72d4c3e9a02" fixture.oid2 "4"
                [fixture.unrated] fixture.rated_once [])
      as (_ & Hcount & _); [reflexivity | reflexivity | reflexivity | | reflexivity | | reflexivity |].
    + by apply (bool_decide_eq_true_1 ("4" ∈ rating_values)).
    + apply Forall_forall. repeat constructor; discriminate.
    + rewrite Hcount. reflexivity.
Defined.

Lemma songs_rating_errors_preserve_store_witness :
  let request :=
    fixture.request "/songs/rating" []
      [("song_id", "5aa0f1a5e2c8b72d4c3e9a02"); ("rating", "invalid")] in
  let w := fixture.world [fixture.unrated; fixture.rated_once] in
  ∃ r, songs_rating request w = (Ok r, w) ∧ status r = 500.
Proof.
  intros request w.
  destruct (songs_rating request w) as [[r|e] w'] eqn:Hrun;
    [|discriminate Hrun].
  destruct (songs_rating_errors_preserve_store request w w' r Hrun)
    as (Hsame & _).
  assert (Hst : status r = 500) by (by injection Hrun as <- _).
  exists r. by rewrite (Hsame Hst).
Defined.

Lemma get_songs_invalid_argument_witness :
  let w := fixture.world [fixture.unrated; fixture.rated_once] in
  get_songs (fixture.request "/songs" [("p", "fake")] []) w
  = (Ok (error_response (errors.InvalidArgumentError (PyStr "fake") "p")), w)
  ∧ get_songs (fixture.request "/songs" [("n", "-1")] []) w
    = (Ok (error_response (errors.InvalidArgumentError (PyStr "-1") "n")), w).
Proof.
  intros w. split.
  - destruct (get_songs_invalid_argument
                (fixture.request "/songs" [("p", "fake")] []) w) as [H _].
    rewrite (H "fake"); [reflexivity | reflexivity | discriminate |].
    left. reflexivity.
  - destruct (get_songs_invalid_argument
                (fixture.request "/songs" [("n", "-1")] []) w) as [_ H].
    rewrite (H "-1" 0); [reflexivity | reflexivity | discriminate | |].
    + right. exists (-1). split; [reflexivity | lia].
    + left. split; [by left | reflexivity].
Defined.

Lemma get_songs_empty_p_counterexample :
  let request := fixture.request "/songs" [("p", EmptyString)] [] in
  let w := fixture.world [fixture.unrated; fixture.rated_once] in
  args request !! "p" = Some EmptyString
  ∧ invalid_number EmptyString
  ∧ get_songs request w
    = (Ok (mkResponse 200 (JsonSongs [fixture.unrated; fixture.rated_once])),
       log (call_find 0 10) w).
Proof.
  intros request w. split; [reflexivity|]. split; [by left|].
  rewrite (get_songs_valid request w 0 10).
  - reflexivity.
  - left. split; [by right | reflexivity].
  - left. split; [by left | reflexivity].
  - reflexivity.
  - reflexivity.
Qed.

Lemma get_songs_zero_page_size_witness :
  let request := fixture.request "/songs" [("n", "0")] [] in
  let w := fixture.world [fixture.unrated; fixture.rated_once] in
  get_songs request w
  = (Ok (mkResponse 200 (JsonSongs [fixture.unrated; fixture.rated_once])),
     log (call_find 0 0) w)
  ∧ Z.of_nat (length [fixture.unrated; fixture.rated_once])
    ≠ Z.min 0 (Z.of_nat (length (collection w)) - 0 * 0).
Proof.
  intros request w. split; [|discriminate].
  apply (get_songs_zero_page_size request w 0).
  - left. split; [by left | reflexivity].
  - right. exists "0". split; [reflexivity|]. split; [reflexivity | lia].
Defined.

Lemma empty_parameter_is_absent_witness :
  let w := fixture.world [fixture.unrated; fixture.rated_once] in
  let request :=
    fixture.request "/songs" [("p", EmptyString); ("n", EmptyString)] [] in
  let request' :=
    fixture.request "/songs/avg/difficulty" [("level", EmptyString)] [] in
  get_songs request w = get_songs (without_arg "p" request) w
  ∧ get_songs request w = get_songs (without_arg "n" request) w
  ∧ get_songs request w
    = (Ok (mkResponse 200 (JsonSongs [fixture.unrated; fixture.rated_once])),
       log (call_find 0 10) w)
  ∧ get_avg_difficulty request' w
    = get_avg_difficulty (without_arg "level" request') w
  ∧ get_avg_difficulty request' w
    = (Ok (mkResponse 200
             (JsonRows [mkAvgRow 14 (fixture.exact_avg [736 # 50]);
                        mkAvgRow 13 (fixture.exact_avg [15%Q])])),
       log (call_aggregate [group_level_avg_difficulty]) w).
Proof.
  intros w request request'.
  destruct (empty_parameter_is_absent request w) as (H1 & H2 & H3 & _).
  destruct (empty_parameter_is_absent request' w) as (_ & _ & _ & H4 & H5).
  split; [apply H1; reflexivity|].
  split; [apply H2; reflexivity|].
  split; [rewrite H3; [reflexivity | by right | by right]|].
  split; [apply H4; reflexivity|].
  rewrite H5; [reflexivity | by right].
Defined.


Lemma songs_ratings_unknown_id_raises_witness :
  let request := fixture.request "/songs/avg/rating/5aa0f1a5e2c8b72d4c3e9a03" [] [] in
  let w := fixture.world [fixture.unrated; fixture.rated_once] in
  songs_ratings request "5aa0f1a5e2c8b72d4c3e9a03" w
  = (Raise TypeError, log (call_find_one fixture.oid3) w)
  ∧ (songs_ratings request "5aa0f1a5e2c8b72d4c3e9a03" w).1
    ≠ Ok (error_response (errors.ObjectNotFoundError (PyOid fixture.oid3))).
Proof.
  intros request w.
  assert (H : songs_ratings request "5aa0f1a5e2c8b72d4c3e9a03" w
              = (Raise TypeError, log (call_find_one fixture.oid3) w)).
  { apply songs_ratings_unknown_id_raises; [reflexivity|].
    apply Forall_forall. repeat constructor; discriminate. }
  split; [exact H|]. rewrite H. discriminate.
Defined.

Lemma songs_ratings_stats_witness :
  let request :=
    fixture.request "/songs/avg/rating/5aa0f1a5e2c8b72d4c3e9a03" [] [] in
  let w := fixture.world [fixture.unrated; fixture.rated_thrice] in
  songs_ratings request "5aa0f1a5e2c8b72d4c3e9a03" w
  = (Ok (mkResponse 200
           (JsonStats fixture.oid3 1 2
              (float.Finite false (7505999378950827 # 4503599627370496)))),
     log (call_find_one fixture.oid3) w)
  ∧ float.nearest (5 # 3)
    = float.Finite false (7505999378950827 # 4503599627370496).
Proof.
  intros request w.
  set (m := <["1" := 1]> ({["2" := 2]} : gmap string Z)).
  assert (Hm : ∀ k v, m !! k = Some v → (k = "1" ∧ v = 1) ∨ (k = "2" ∧ v = 2)).
  { intros k v. unfold m.
    intros [[<- <-] | [_ [<- <-]%lookup_singleton_Some]]%lookup_insert_Some;
      [by left | by right]. }
  destruct (songs_ratings_stats request w "5aa0f1a5e2c8b72d4c3e9a03"
              fixture.oid3 fixture.rated_thrice m)
    as (mn & mx & Hrun & Hmin & Hmax & _).
  - reflexivity.
  - reflexivity.
  - reflexivity.
  - apply insert_non_empty.
  - intros k v Hkv. destruct (Hm k v Hkv) as [[-> ->] | [-> ->]].
    + exists 1. split; [reflexivity|]. split; [|lia].
      split; [lia | reflexivity].
    + exists 2. split; [reflexivity|]. split; [|lia].
      split; [lia | reflexivity].
  - discriminate.
  - reflexivity.
  - assert (mn = 1) as ->.
    { destruct Hmin as [(k & v & Hkv & Hk) Hle].
      pose proof (Hle "1" 1 1 eq_refl eq_refl) as Hle1.
      destruct (Hm k v Hkv) as [[-> ->] | [-> ->]];
        injection Hk as <-; lia. }
    assert (mx = 2) as ->.
    { destruct Hmax as [(k & v & Hkv & Hk) Hle].
      pose proof (Hle "2" 2 2 eq_refl eq_refl) as Hle2.
      destruct (Hm k v Hkv) as [[-> ->] | [-> ->]];
        injection Hk as <-; lia. }
    split; [|reflexivity]. rewrite Hrun. reflexivity.
Defined.
Lemma songs_ratings_zero_count_counterexample :
  let request :=
    fixture.request "/songs/avg/rating/5aa0f1a5e2c8b72d4c3e9a03" [] [] in
  let w := fixture.world [fixture.zero_count] in
  let m : gmap string Z := <["1" := 0]> {["3" := 2]} in
  rating fixture.zero_count = Some m
  ∧ m ≠ ∅
  ∧ (songs_ratings request "5aa0f1a5e2c8b72d4c3e9a03" w).1
    = Ok (mkResponse 200
            (JsonStats fixture.oid3 1 3 (float.Finite false 3)))
  ∧ ¬ is_min_rating m 1
  ∧ is_min_rating m 3.
Proof.
  intros request w m.
  assert (Hm : ∀ k v, m !! k = Some v → (k = "1" ∧ v = 0) ∨ (k = "3" ∧ v = 2)).
  { intros k v. unfold m.
    intros [[<- <-] | [_ [<- <-]%lookup_singleton_Some]]%lookup_insert_Some;
      [by left | by right]. }
  split; [reflexivity|]. split; [apply insert_non_empty|].
  split; [reflexivity|]. split.
  - intros [(k & v & Hkv & Hv & Hk) _].
    destruct (Hm _ _ Hkv) as [[-> ->] | [-> ->]]; [done | discriminate Hk].
  - split.
    + exists "3", 2. split; [reflexivity|]. split; [lia | reflexivity].
    + intros k v z Hkv Hv Hk.
      destruct (Hm _ _ Hkv) as [[-> ->] | [-> ->]]; [done|].
      injection Hk as <-. lia.
Qed.

(** The mean is rounded: for one rating at 1 and two at 2 the handler
    answers the float nearest to 5/3, which is not 5/3. *)
Lemma songs_ratings_rounded_mean :
  let request :=
    fixture.request "/songs/avg/rating/5aa0f1a5e2c8b72d4c3e9a03" [] [] in
  let w := fixture.world [fixture.rated_thrice] in
  (songs_ratings request "5aa0f1a5e2c8b72d4c3e9a03" w).1
  = Ok (mkResponse 200
          (JsonStats fixture.oid3 1 2
             (float.Finite false (7505999378950827 # 4503599627370496))))
  ∧ ¬ (7505999378950827 # 4503599627370496 == 5 # 3)%Q.
Proof. split; [reflexivity | discriminate]. Qed.

(** Beyond [2 ^ 53] the products are rounded too: for 1960144884822115
    ratings at 5 the handler answers an average above 5. *)
Lemma songs_ratings_large_count :
  let request :=
    fixture.request "/songs/avg/rating/5aa0f1a5e2c8b72d4c3e9a03" [] [] in
  let w := fixture.world [fixture.large_count] in
  (songs_ratings request "5aa0f1a5e2c8b72d4c3e9a03" w).1
  = Ok (mkResponse 200
          (JsonStats fixture.oid3 5 5
             (float.Finite false (5629499534213121 # 1125899906842624))))
  ∧ (5 < 5629499534213121 # 1125899906842624)%Q.
Proof. split; reflexivity. Qed.
Lemma songs_ratings_empty_mapping_witness :
  let request :=
    fixture.request "/songs/avg/rating/5aa0f1a5e2c8b72d4c3e9a03" [] [] in
  let w := fixture.world [fixture.unrated; fixture.empty_rating] in
  songs_ratings request "5aa0f1a5e2c8b72d4c3e9a03" w
  = (Raise ValueError, log (call_find_one fixture.oid3) w).
Proof.
  intros request w.
  apply (songs_ratings_empty_mapping request w _ fixture.oid3
           fixture.empty_rating); reflexivity.
Defined.

Lemma songs_ratings_empty_mapping_counterexample :
  let request :=
    fixture.request "/songs/avg/rating/5aa0f1a5e2c8b72d4c3e9a03" [] [] in
  let w := fixture.world [fixture.empty_rating] in
  rating fixture.empty_rating = Some ∅
  ∧ (songs_ratings request "5aa0f1a5e2c8b72d4c3e9a03" w).1 = Raise ValueError
  ∧ (songs_ratings request "5aa0f1a5e2c8b72d4c3e9a03" w).1
    ≠ Raise ZeroDivisionError.
Proof.
  intros request w.
  assert (H : (songs_ratings request "5aa0f1a5e2c8b72d4c3e9a03" w).1
              = Raise ValueError) by reflexivity.
  split; [reflexivity|]. split; [exact H|]. rewrite H. discriminate.
Qed.

Lemma get_songs_page_witness :
  let request := fixture.request "/songs" [("p", "1"); ("n", "1")] [] in
  let w := fixture.world [fixture.unrated; fixture.rated_once] in
  ∃ songs,
    get_songs request w
    = (Ok (mkResponse 200 (JsonSongs songs)), log (call_find 1 1) w)
    ∧ songs = [fixture.rated_once]
    ∧ Z.of_nat (length songs) = 1.
Proof.
  intros request w.
  destruct (get_songs_page request w 1 1) as (songs & Hrun & Hsongs & Hlen).
  - right. exists "1". split; [reflexivity|]. split; [reflexivity | lia].
  - right. exists "1". split; [reflexivity|]. split; [reflexivity | lia].
  - lia.
  - reflexivity.
  - reflexivity.
  - exists songs. split; [exact Hrun|]. split; [|exact Hlen].
    rewrite Hsongs. reflexivity.
Defined.

Lemma get_songs_page_beyond_end_witness :
  let request := fixture.request "/songs" [("p", "3")] [] in
  let w := fixture.world [fixture.unrated; fixture.rated_once] in
  get_songs request w
  = (Ok (mkResponse 200 (JsonSongs [])), log (call_find 30 10) w).
Proof.
  intros request w.
  apply (get_songs_page_beyond_end request w 3 10).
  - right. exists "3". split; [reflexivity|]. split; [reflexivity | lia].
  - left. split; [by left | reflexivity].
  - lia.
  - reflexivity.
  - reflexivity.
  - simpl. lia.
Defined.

Lemma get_songs_pages_tile_witness :
  let w :=
    fixture.world [fixture.unrated; fixture.rated_once; fixture.zero_count] in
  let requests (i : nat) :=
    match i with
    | O => fixture.request "/songs" [("p", "0"); ("n", "2")] []
    | _ => fixture.request "/songs" [("p", "1"); ("n", "2")] []
    end in
  songs_of (get_songs (requests 0%nat) w)
  ++ songs_of (get_songs (requests 1%nat) w)
  = [fixture.unrated; fixture.rated_once; fixture.zero_count].
Proof.
  intros w requests.
  transitivity
    (concat ((λ i, songs_of (get_songs (requests i) w)) <$> seq 0 2)).
  { simpl. by rewrite app_nil_r. }
  rewrite (get_songs_pages_tile requests w 2 2);
    [reflexivity | lia | reflexivity |].
  intros [|[|i]] Hi; [| |lia].
  - split; right; [exists "0" | exists "2"];
      (split; [reflexivity|]; split; [reflexivity | lia]).
  - split; right; [exists "1" | exists "2"];
      (split; [reflexivity|]; split; [reflexivity | lia]).
Defined.

Lemma get_avg_difficulty_invalid_level_witness :
  let request :=
    fixture.request "/songs/avg/difficulty" [("level", "fake")] [] in
  let w := fixture.world [fixture.unrated; fixture.rated_once] in
  get_avg_difficulty request w
  = (Ok (error_response (errors.InvalidArgumentError (PyStr "fake") "level")),
     w).
Proof.
  intros request w.
  rewrite (get_avg_difficulty_invalid_level request w "fake");
    [reflexivity | reflexivity | discriminate | reflexivity].
Defined.

Lemma songs_ratings_malformed_id_witness :
  let request := fixture.request "/songs/avg/rating/fake" [] [] in
  let w := fixture.world [fixture.unrated; fixture.rated_once] in
  songs_ratings request "fake" w
  = (Ok (error_response
           (errors.InvalidArgumentError (PyStr "fake") "song_id")),
     w)
  ∧ songs_ratings request "5aa0f1a5e2c8b72d4c3e9a0z" w
    = (Ok (error_response
             (errors.InvalidArgumentError (PyStr "5aa0f1a5e2c8b72d4c3e9a0z")
                "song_id")),
       w)
  ∧ status <$> response_of
                 (songs_ratings request "5aa0f1a5e2c8b72d4c3e9a02" w)
    = Some 200
  ∧ response_of (songs_ratings request "5a a0 f1 a5 e2 c8 b7 2d " w) = None.
Proof.
  intros request w. split; [|split; [|split]].
  - destruct (songs_ratings_malformed_id request w "fake") as [H _].
    rewrite H; [reflexivity|]. left. discriminate.
  - destruct (songs_ratings_malformed_id request w
                "5aa0f1a5e2c8b72d4c3e9a0z") as [H _].
    rewrite H; [reflexivity|]. right. exists "z"%char.
    split; [|split; reflexivity].
    apply list_elem_of_In, (bool_decide_eq_true_1 (In _ _)). reflexivity.
  - destruct (songs_ratings_malformed_id request w
                "5aa0f1a5e2c8b72d4c3e9a02") as [_ H].
    destruct (response_of
                (songs_ratings request "5aa0f1a5e2c8b72d4c3e9a02" w))
      as [r|] eqn:Hr; [|discriminate Hr].
    simpl. f_equal. apply H; [by eexists | reflexivity].
  - destruct (songs_ratings_malformed_id request w
                "5a a0 f1 a5 e2 c8 b7 2d ") as [_ H].
    destruct (response_of
                (songs_ratings request "5a a0 f1 a5 e2 c8 b7 2d " w))
      as [r|] eqn:Hr; [|reflexivity].
    discriminate Hr.
Defined.

Lemma songs_ratings_unrated_witness :
  let request :=
    fixture.request "/songs/avg/rating/5aa0f1a5e2c8b72d4c3e9a01" [] [] in
  let w := fixture.world [fixture.unrated; fixture.rated_once] in
  songs_ratings request "5aa0f1a5e2c8b72d4c3e9a01" w
  = (Raise KeyError, log (call_find_one fixture.oid1) w).
Proof.
  intros request w.
  apply (songs_ratings_unrated request w _ fixture.oid1 fixture.unrated);
    reflexivity.
Defined.

Lemma songs_ratings_zero_total_witness :
  let request :=
    fixture.request "/songs/avg/rating/5aa0f1a5e2c8b72d4c3e9a03" [] [] in
  let w := fixture.world [fixture.unrated; fixture.zero_total] in
  songs_ratings request "5aa0f1a5e2c8b72d4c3e9a03" w
  = (Raise ZeroDivisionError, log (call_find_one fixture.oid3) w).
Proof.
  intros request w.
  apply (songs_ratings_zero_total request w _ fixture.oid3
           fixture.zero_total {["3" := 0]}).
  - reflexivity.
  - reflexivity.
  - reflexivity.
  - apply map_non_empty_singleton.
  - intros k v [<- <-]%lookup_singleton_Some. by exists 3.
  - reflexivity.
Defined.

Lemma songs_ratings_bounds_witness :
  let request :=
    fixture.request "/songs/avg/rating/5aa0f1a5e2c8b72d4c3e9a03" [] [] in
  let w := fixture.world [fixture.unrated; fixture.rated_thrice] in
  ∃ min_rating max_rating avg_rating,
    songs_ratings request "5aa0f1a5e2c8b72d4c3e9a03" w
    = (Ok (mkResponse 200
             (JsonStats fixture.oid3 min_rating max_rating
                (float.Finite false avg_rating))),
       log (call_find_one fixture.oid3) w)
    ∧ 1 ≤ min_rating ∧ max_rating ≤ 5
    ∧ (inject_Z min_rating <= avg_rating)%Q
    ∧ (avg_rating <= inject_Z max_rating)%Q.
Proof.
  intros request w.
  apply (songs_ratings_bounds request w "5aa0f1a5e2c8b72d4c3e9a03"
           fixture.oid3 fixture.rated_thrice
           (<["1" := 1]> {["2" := 2]})).
  - reflexivity.
  - reflexivity.
  - reflexivity.
  - intros m [= <-]. split; [apply insert_non_empty|].
    intros k v
      [[<- <-] | [_ [<- <-]%lookup_singleton_Some]]%lookup_insert_Some.
    + split; [|lia]. by apply (bool_decide_eq_true_1 ("1" ∈ rating_values)).
    + split; [|lia]. by apply (bool_decide_eq_true_1 ("2" ∈ rating_values)).
  - reflexivity.
Defined.

Lemma first_rating_stats_witness :
  let request :=
    fixture.request "/songs/rating" []
      [("song_id", "5aa0f1a5e2c8b72d4c3e9a01"); ("rating", "4")] in
  let get :=
    fixture.request "/songs/avg/rating/5aa0f1a5e2c8b72d4c3e9a01" [] [] in
  let w := fixture.world [fixture.unrated; fixture.rated_once] in
  (songs_ratings get "5aa0f1a5e2c8b72d4c3e9a01" (songs_rating request w).2).1
  = Ok (mkResponse 200 (JsonStats fixture.oid1 4 4 (float.Finite false 4))).
Proof.
  intros request get w.
  destruct (first_rating_stats request get w "5aa0f1a5e2c8b72d4c3e9a01" "4"
              fixture.oid1 [] [fixture.rated_once] fixture.unrated)
    as (z & Hz & Hrun).
  - reflexivity.
  - reflexivity.
  - reflexivity.
  - by apply (bool_decide_eq_true_1 ("4" ∈ rating_values)).
  - reflexivity.
  - by intros x ?%elem_of_nil.
  - reflexivity.
  - reflexivity.
  - injection Hz as <-. rewrite Hrun. reflexivity.
Defined.

Lemma run_ratings_wf_witness :
  let request :=
    fixture.request "/songs/rating" []
      [("song_id", "5aa0f1a5e2c8b72d4c3e9a01"); ("rating", "5")] in
  let w := fixture.world [fixture.unrated] in
  Forall rating_wf (collection (run_ratings [request; request] w))
  ∧ (rating <$> collection (run_ratings [request; request] w))
    = [Some {["5" := 2]}].
Proof.
  intros request w. split; [|reflexivity].
  apply (run_ratings_wf [request; request] w).
  constructor; [|constructor]. intros m' Hm. discriminate Hm.
Defined.

Lemma repeated_rating_counts_witness :
  let request :=
    fixture.request "/songs/rating" []
      [("song_id", "5aa0f1a5e2c8b72d4c3e9a02"); ("rating", "4")] in
  let w := fixture.world [fixture.unrated; fixture.rated_once] in
  ∃ d',
    collection (run_ratings (replicate 3 request) w) = [fixture.unrated; d']
    ∧ rating_count "4" d' = 4.
Proof.
  intros request w.
  destruct (repeated_rating_counts request w "5aa0f1a5e2c8b72d4c3e9a02" "4"
              fixture.oid2 [fixture.unrated] [] fixture.rated_once 3)
    as (d' & Hdocs & Hcount & _).
  - reflexivity.
  - reflexivity.
  - reflexivity.
  - by apply (bool_decide_eq_true_1 ("4" ∈ rating_values)).
  - reflexivity.
  - apply Forall_forall. repeat constructor; discriminate.
  - reflexivity.
  - exists d'. split; [exact Hdocs|]. rewrite Hcount. reflexivity.
Defined.
